(** * jira_scraper: resilient, resumable retrieval core

    A shallow embedding of [jira_scraper.py] and the properties of its
    retry/backoff transport ([jira_get]), its pagination loop
    ([scrape_project]), its checkpoint store and its output sink.

    Conventions of the embedding.
    - Python [int] is [Z]; Python [float] is idealised as an exact rational
      [Q] (every delay of the default backoff schedule, 1, 2, ..., 32, 60,
      is exactly representable).
    - JSON documents are read through the typed view the code takes of them
      with [.get]: a missing key is [None], with the default the call site
      gives.
    - Effects are threaded explicitly: a state holds the remote world, the
      file system and the chronological list of effects performed so far.
      The file system maps a path to what was written there; the handle
      [out_f] is identified with the path it was opened at.
    - [session.get], [random.random] and the text libraries are parameters
      of the development.
    - The two [while True] loops take fuel; running out of it is the
      outcome [Diverge].
    - The progress bar (tqdm) only draws on the terminal and is left out. *)

From Stdlib Require Import ZArith QArith Qminmax Qpower Ascii String List Lia Lqa.
From stdpp Require Import gmap strings list.

Open Scope Z_scope.

(** ** Data model *)

(** Values of [issue.get("key")]: a string, or Python's [None]. *)
Definition Key : Type := option string.

Record Person := { displayName : option string }.
Record Named := { name : option string }.
Record ProjectRef := { project_key : option string }.

(** The [fields] object of an issue, as read by [issue_to_record]. *)
Record Fields := {
  summary : option string;
  description : option string;
  project : option ProjectRef;
  reporter : option Person;
  assignee : option Person;
  status : option Named;
  priority : option Named;
  labels : option (list string);
  created : option string;
  updated : option string
}.

Record Issue := {
  issue_id : option string;
  issue_key : Key;
  issue_fields : option Fields
}.

(** One entry of the [comments] array of the comment endpoint. *)
Record RawComment := {
  rc_id : option string;
  rc_author : option Person;
  rc_created : option string;
  rc_body : option string
}.

(** The dictionary built for each comment by [fetch_comments]. *)
Record Comment := {
  c_id : option string;
  c_author : option string;
  c_created : option string;
  c_body : string
}.

(** The dictionary built by [issue_to_record]. *)
Record OutRecord := {
  r_id : option string;
  r_key : Key;
  r_title : option string;
  r_project : option string;
  r_reporter : option string;
  r_assignee : option string;
  r_status : option string;
  r_priority : option string;
  r_labels : list string;
  r_created : option string;
  r_updated : option string;
  r_description : string;
  r_comments : list Comment;
  r_content : string;
  r_summary_prompt : string;
  r_qa_prompt : string
}.

(** A parsed response body, a JSON object seen through the keys the
    program reads from it. *)
Record Body := {
  b_total : option Z;
  b_issues : option (list Issue);
  b_comments : option (list RawComment)
}.

(** The [params] dictionary of the search request. *)
Record Params := {
  p_jql : string;
  p_startAt : Z;
  p_maxResults : Z;
  p_fields : string
}.

(** The checkpoint dictionary [{"startAt": ..., "processed": [...]}]. *)
Record Checkpoint := {
  ck_startAt : Z;
  ck_processed : list Key
}.

(** What [session.get] can give: a [requests.RequestException], or a
    response with its status code, its [Retry-After] header and, when the
    body parses as JSON, the parsed body ([r.json()] raises [ValueError]
    on [None]). *)
Inductive response :=
| ConnectionFailed
| Reply (status_code : Z) (retry_after : option string) (json : option Body).

Inductive exn :=
| RequestException
| HTTPError (status_code : Z)
| ValueError
| TypeError
| FileNotFoundError.

(** A file is the sequence of what was written to it: one JSON checkpoint
    by [json.dump], or record lines by [out_f.write]. *)
Inductive blob :=
| JsonCheckpoint (c : Checkpoint)
| RecordLine (line : string).

(** The effects of a run, in the order they happen. *)
Inductive event :=
| HttpGet (url : string) (params : option Params)
| Sleep (seconds : Q)
| Warning (key : Key) (e : exn)
| Opened (path : string)
| Wrote (path : string) (r : OutRecord)
| Flushed (path : string)
| Closed (path : string)
| Dumped (path : string) (c : Checkpoint)
| Replaced (src dst : string)
| Finished (project out_path : string).

Inductive outcome (A : Type) : Type :=
| Ret (a : A)
| Raise (e : exn)
| Diverge.
Arguments Ret {A} a.
Arguments Raise {A} e.
Arguments Diverge {A}.

(** ** Constants *)

Definition BASE : string := "https://issues.apache.org/jira/rest/api/2".
Definition DEFAULT_MAX_RESULTS : Z := 100.
Definition DEFAULT_MAX_ATTEMPTS : Z := 6.
Definition DEFAULT_BASE : Q := 1.
Definition DEFAULT_CAP : Q := 60.
Definition SEARCH_FIELDS : string :=
  "summary,description,project,reporter,assignee,status,priority,labels,created,updated".

Definition nl : string := String (ascii_of_nat 10) EmptyString.

(** ** Python's [int(s)] on a string *)

Definition is_space (c : ascii) : bool :=
  let n := Z.of_nat (nat_of_ascii c) in
  ((9 <=? n) && (n <=? 13)) || ((28 <=? n) && (n <=? 32))
  || (n =? 133) || (n =? 160).

Definition digit_value (c : ascii) : option Z :=
  let n := Z.of_nat (nat_of_ascii c) in
  if (48 <=? n) && (n <=? 57) then Some (n - 48) else None.

Definition is_underscore (c : ascii) : bool :=
  Z.of_nat (nat_of_ascii c) =? 95.

Fixpoint lstrip (cs : list ascii) : list ascii :=
  match cs with
  | c :: cs' => if is_space c then lstrip cs' else cs
  | [] => []
  end.

Definition strip (cs : list ascii) : list ascii :=
  rev (lstrip (rev (lstrip cs))).

(** Digits, with single underscores allowed between two digits.
    [after_digit] tells whether the previous character was a digit. *)
Fixpoint digits (acc : Z) (after_digit : bool) (cs : list ascii) : option Z :=
  match cs with
  | [] => if after_digit then Some acc else None
  | c :: cs' =>
      match digit_value c with
      | Some d => digits (10 * acc + d) true cs'
      | None =>
          if is_underscore c && after_digit
          then match cs' with
               | [] => None
               | c' :: _ => match digit_value c' with
                            | Some _ => digits acc false cs'
                            | None => None
                            end
               end
          else None
      end
  end.

(** [None] stands for [ValueError]. *)
Definition py_int (s : string) : option Z :=
  match strip (list_ascii_of_string s) with
  | [] => None
  | c :: cs =>
      if Ascii.eqb c "-" then Z.opp <$> digits 0 false cs
      else if Ascii.eqb c "+" then digits 0 false cs
      else digits 0 false (c :: cs)
  end.

(** ** Backoff arithmetic *)

(** [min(cap, base * (2 ** attempt))] *)
Definition backoff_delay (attempt : Z) (base cap : Q) : Q :=
  Qmin cap (base * 2 ^ attempt).

(** [0.5 + random.random() * 0.5] *)
Definition jitter (r : Q) : Q := (1 # 2) + r * (1 # 2).

(** [r.raise_for_status()]: the exception raised, if any. *)
Definition raise_for_status (status_code : Z) : option exn :=
  if (400 <=? status_code) && (status_code <? 600)
  then Some (HTTPError status_code) else None.

(** ** Remote sides and libraries for examples *)

(** A remote side that replays a list of responses, then refuses
    connections. *)
Definition scripted (w : list response) (url : string) (params : option Params)
    : response * list response :=
  match w with
  | r :: w' => (r, w')
  | [] => (ConnectionFailed, [])
  end.

(** A remote side that gives the same response forever. *)
Definition always (r : response) (w : unit) (url : string)
    (params : option Params) : response * unit :=
  (r, tt).

(** A source of randomness stuck at one value. *)
Definition constant_random {W : Type} (r : Q) (w : W) : Q * W := (r, w).

(** Stand-ins for the text utilities and for the serialiser. *)
Definition plain_text (s : string) : string := s.
Definition no_date (s : string) : option string := None.
Definition dumps_title (r : OutRecord) : string := default EmptyString (r_title r).

(** An issue with a key and a summary, and nothing else. *)
Definition bare_issue (k title : string) : Issue :=
  {| issue_id := None;
     issue_key := Some k;
     issue_fields :=
       Some {| summary := Some title; description := None; project := None;
               reporter := None; assignee := None; status := None;
               priority := None; labels := None; created := None;
               updated := None |} |}.

(** An issue whose [fields] carry no summary. *)
Definition untitled_issue (k : string) : Issue :=
  {| issue_id := None; issue_key := Some k; issue_fields := None |}.

(** A search page and a comment list, as response bodies. *)
Definition page_body (total : option Z) (issues : list Issue) : Body :=
  {| b_total := total; b_issues := Some issues; b_comments := None |}.

Definition comments_body (comments : list RawComment) : Body :=
  {| b_total := None; b_issues := None; b_comments := Some comments |}.

(** ** The program *)

Section Scraper.

(** The remote side and the libraries the program calls into. *)
Variable W : Type.
(** [session.get(url, params=params, timeout=30)] *)
Variable session_get : W -> string -> option Params -> response * W.
(** [random.random()] *)
Variable random_random : W -> Q * W.
(** [BeautifulSoup(html, "html.parser").get_text(separator="\n").strip()] *)
Variable soup_text : string -> string.
(** [dateparser.parse(s).isoformat()], [None] when it raises. *)
Variable dateutil_isoformat : string -> option string.
(** [str.strip()] *)
Variable str_strip : string -> string.
(** [json.dumps(record, ensure_ascii=False)] *)
Variable json_dumps : OutRecord -> string.

(** The world, the file system, the write buffer of [out_f] and the
    effects so far, oldest first. *)
Record state := mkState {
  world : W;
  files : gmap string (list blob);
  out_buf : list blob;
  trace : list event
}.

Definition M (A : Type) : Type := state -> outcome A * state.

Definition ret {A} (a : A) : M A := fun s => (Ret a, s).
Definition raise {A} (e : exn) : M A := fun s => (Raise e, s).
Definition diverge {A} : M A := fun s => (Diverge, s).

Definition bind {A B} (m : M A) (k : A -> M B) : M B :=
  fun s =>
    match m s with
    | (Ret a, s') => k a s'
    | (Raise e, s') => (Raise e, s')
    | (Diverge, s') => (Diverge, s')
    end.

(** [try: m  except Exception as e: h e] *)
Definition try_except {A} (m : M A) (h : exn -> M A) : M A :=
  fun s =>
    match m s with
    | (Raise e, s') => h e s'
    | r => r
    end.

Notation "x <- m ;; k" := (bind m (fun x => k))
  (at level 100, m at next level, right associativity).
Notation "m ;;; k" := (bind m (fun _ => k))
  (at level 100, right associativity).

Definition emit (e : event) : M unit :=
  fun s => (Ret tt, mkState (world s) (files s) (out_buf s) (trace s ++ [e])).

(** *** Utilities *)

Definition html_to_text (html : option string) : string :=
  match html with
  | None => EmptyString
  | Some h => if String.eqb h EmptyString then EmptyString else soup_text h
  end.

Definition safe_parse_date (s : option string) : option string :=
  match s with
  | None => None
  | Some t => match dateutil_isoformat t with
              | Some iso => Some iso
              | None => Some t
              end
  end.

(** [time.sleep] raises [ValueError] on a negative length. *)
Definition time_sleep (seconds : Q) : M unit :=
  if Qlt_le_dec seconds 0 then raise ValueError else emit (Sleep seconds).

Definition draw : M Q :=
  fun s => let '(r, w) := random_random (world s) in
           (Ret r, mkState w (files s) (out_buf s) (trace s)).

Definition backoff_sleep (attempt : Z) (base cap : Q) : M unit :=
  let sleep := backoff_delay attempt base cap in
  r <- draw ;;
  let sleep := (sleep * jitter r)%Q in
  time_sleep sleep.

(** *** Files *)

Definition os_path_exists (path : string) : M bool :=
  fun s => (Ret (bool_decide (is_Some (files s !! path))), s).

(** [os.replace(src, dst)] *)
Definition os_replace (src dst : string) : M unit :=
  fun s =>
    match files s !! src with
    | None => (Raise FileNotFoundError, s)
    | Some content =>
        (Ret tt, mkState (world s) (<[dst := content]> (delete src (files s)))
                         (out_buf s) (trace s ++ [Replaced src dst]))
    end.

(** [open(path, "a")] *)
Definition open_append (path : string) : M unit :=
  fun s =>
    (Ret tt, mkState (world s)
                     (<[path := default [] (files s !! path)]> (files s))
                     [] (trace s ++ [Opened path])).

(** [out_f.write(json.dumps(record, ensure_ascii=False) + "\n")] *)
Definition write_record (path : string) (r : OutRecord) : M unit :=
  fun s =>
    (Ret tt, mkState (world s) (files s)
                     (out_buf s ++ [RecordLine (json_dumps r +:+ nl)])
                     (trace s ++ [Wrote path r])).

Definition push_buffer (path : string) (s : state) : gmap string (list blob) :=
  <[path := default [] (files s !! path) ++ out_buf s]> (files s).

(** [out_f.flush()] *)
Definition flush (path : string) : M unit :=
  fun s => (Ret tt, mkState (world s) (push_buffer path s) []
                            (trace s ++ [Flushed path])).

(** [out_f.close()] *)
Definition close (path : string) : M unit :=
  fun s => (Ret tt, mkState (world s) (push_buffer path s) []
                            (trace s ++ [Closed path])).

(** [with open(path, "w") as f: json.dump(checkpoint, f)] *)
Definition dump_checkpoint (path : string) (c : Checkpoint) : M unit :=
  fun s => (Ret tt, mkState (world s) (<[path := [JsonCheckpoint c]]> (files s))
                            (out_buf s) (trace s ++ [Dumped path c])).

(** *** Checkpointing *)

Definition checkpoint_fname (project : string) : string :=
  "checkpoint-" +:+ project +:+ ".json".

Definition load_checkpoint (project : string) : M Checkpoint :=
  let fname := checkpoint_fname project in
  fun s =>
    match files s !! fname with
    | Some [JsonCheckpoint c] => (Ret c, s)
    | Some [RecordLine _] => (Ret {| ck_startAt := 0; ck_processed := [] |}, s)
    | Some _ => (Raise ValueError, s)
    | None => (Ret {| ck_startAt := 0; ck_processed := [] |}, s)
    end.

Definition save_checkpoint (project : string) (checkpoint : Checkpoint) : M unit :=
  let fname := checkpoint_fname project in
  dump_checkpoint (fname +:+ ".tmp") checkpoint ;;;
  os_replace (fname +:+ ".tmp") fname.

(** *** API caller with retry and backoff *)

Definition http_get (url : string) (params : option Params) : M response :=
  fun s => let '(r, w) := session_get (world s) url params in
           (Ret r, mkState w (files s) (out_buf s) (trace s ++ [HttpGet url params])).

Definition check_status (status_code : Z) : M unit :=
  match raise_for_status status_code with
  | Some e => raise e
  | None => ret tt
  end.

(** The pause of the 429 branch (lines 84-92): [ra] is
    [r.headers.get("Retry-After")]. *)
Definition rate_limit_pause (ra : option string) (attempt : Z) : M unit :=
  match ra with
  | Some h =>
      if String.eqb h EmptyString
      then backoff_sleep attempt DEFAULT_BASE DEFAULT_CAP
      else
        let wait := default 60 (py_int h) in
        time_sleep (inject_Z (wait + 1))
  | None => backoff_sleep attempt DEFAULT_BASE DEFAULT_CAP
  end.

Fixpoint jira_get_loop (fuel : nat) (url : string) (params : option Params)
    (max_attempts attempt : Z) : M Body :=
  match fuel with
  | O => diverge
  | S fuel' =>
      r <- http_get url params ;;
      match r with
      | ConnectionFailed =>
          if attempt >=? max_attempts then raise RequestException
          else
            backoff_sleep attempt DEFAULT_BASE DEFAULT_CAP ;;;
            jira_get_loop fuel' url params max_attempts (attempt + 1)
      | Reply status_code ra body =>
          if status_code =? 200 then
            match body with
            | Some b => ret b
            | None =>
                if attempt >=? max_attempts then raise ValueError
                else
                  backoff_sleep attempt DEFAULT_BASE DEFAULT_CAP ;;;
                  jira_get_loop fuel' url params max_attempts (attempt + 1)
            end
          else if status_code =? 429 then
            rate_limit_pause ra attempt ;;;
            let attempt := attempt + 1 in
            (if attempt >? max_attempts then check_status status_code else ret tt) ;;;
            jira_get_loop fuel' url params max_attempts attempt
          else if (500 <=? status_code) && (status_code <? 600) then
            (if attempt >=? max_attempts then check_status status_code else ret tt) ;;;
            backoff_sleep attempt DEFAULT_BASE DEFAULT_CAP ;;;
            jira_get_loop fuel' url params max_attempts (attempt + 1)
          else
            check_status status_code ;;;
            jira_get_loop fuel' url params max_attempts attempt
      end
  end.

Definition jira_get (fuel : nat) (url : string) (params : option Params)
    (max_attempts : Z) : M Body :=
  jira_get_loop fuel url params max_attempts 0.


(** *** Main logic *)

(** The text an f-string gives for a key. *)
Definition key_text (k : Key) : string :=
  match k with
  | Some s => s
  | None => "None"
  end.

Definition to_comment (c : RawComment) : Comment :=
  {| c_id := rc_id c;
     c_author := match rc_author c with
                 | Some a => displayName a
                 | None => None
                 end;
     c_created := safe_parse_date (rc_created c);
     c_body := html_to_text (rc_body c) |}.

Definition fetch_comments (fuel : nat) (issue_key : Key) : M (list Comment) :=
  let url := BASE +:+ "/issue/" +:+ key_text issue_key +:+ "/comment" in
  data <- jira_get fuel url None DEFAULT_MAX_ATTEMPTS ;;
  ret (map to_comment (default [] (b_comments data))).

(** [fields.get(k)] where [fields = issue.get("fields", {})]. *)
Definition fields_get {A} (fields : option Fields) (f : Fields -> option A)
    : option A :=
  match fields with
  | Some fs => f fs
  | None => None
  end.

Definition join_bodies (comments : list Comment) : string :=
  String.concat (nl +:+ nl) (map c_body comments).

(** Adding [None] to a string raises [TypeError]. *)
Definition issue_to_record (issue : Issue) (comments : list Comment)
    : exn + OutRecord :=
  let fields := issue_fields issue in
  let title := fields_get fields summary in
  let descr := html_to_text (fields_get fields description) in
  match title with
  | None => inl TypeError
  | Some t =>
      let all_text := t +:+ nl +:+ nl +:+ descr +:+ nl +:+ nl +:+ join_bodies comments in
      let content := str_strip all_text in
      inr {| r_id := issue_id issue;
             r_key := issue_key issue;
             r_title := title;
             r_project := match fields_get fields project with
                          | Some p => project_key p
                          | None => None
                          end;
             r_reporter := match fields_get fields reporter with
                           | Some p => displayName p
                           | None => None
                           end;
             r_assignee := match fields_get fields assignee with
                           | Some p => displayName p
                           | None => None
                           end;
             r_status := match fields_get fields status with
                         | Some n => name n
                         | None => None
                         end;
             r_priority := match fields_get fields priority with
                           | Some n => name n
                           | None => None
                           end;
             r_labels := default [] (fields_get fields labels);
             r_created := safe_parse_date (fields_get fields created);
             r_updated := safe_parse_date (fields_get fields updated);
             r_description := descr;
             r_comments := comments;
             r_content := content;
             r_summary_prompt :=
               "Summarize the following Jira issue:" +:+ nl +:+ nl +:+ content;
             r_qa_prompt :=
               "Write 3 question-answer pairs that help understand this issue:"
               +:+ nl +:+ nl +:+ content |}
  end.

Definition lift {A} (r : exn + A) : M A :=
  match r with
  | inl e => raise e
  | inr a => ret a
  end.

(** The body of [for issue in issues] (lines 184-201). *)
Definition process_issue (fuel : nat) (out_tmp : string) (processed : gset Key)
    (issue : Issue) : M (gset Key) :=
  let key := issue_key issue in
  if decide (key ∈ processed) then ret processed
  else
    comments <- try_except (fetch_comments fuel key)
                           (fun e => emit (Warning key e) ;;; ret []) ;;
    record <- lift (issue_to_record issue comments) ;;
    write_record out_tmp record ;;;
    flush out_tmp ;;;
    ret (processed ∪ {[key]}).

Fixpoint process_issues (fuel : nat) (out_tmp : string) (processed : gset Key)
    (issues : list Issue) : M (gset Key) :=
  match issues with
  | [] => ret processed
  | issue :: rest =>
      processed' <- process_issue fuel out_tmp processed issue ;;
      process_issues fuel out_tmp processed' rest
  end.

(** How one turn of the [while True] of [scrape_project] ends. *)
Inductive flow :=
| Again (startAt : Z) (processed : gset Key) (total : option Z)
| Stop (startAt : Z) (processed : gset Key).

Definition reached (total : option Z) (startAt : Z) : bool :=
  match total with
  | Some t => startAt >=? t
  | None => false
  end.

(** One turn of the [while True] of [scrape_project] (lines 170-212). *)
Definition scan_page (fuel : nat) (project jql out_tmp : string) (maxResults : Z)
    (startAt : Z) (processed : gset Key) (total : option Z) : M flow :=
  let params := {| p_jql := jql; p_startAt := startAt;
                   p_maxResults := maxResults; p_fields := SEARCH_FIELDS |} in
  let url := BASE +:+ "/search" in
  data <- jira_get fuel url (Some params) DEFAULT_MAX_ATTEMPTS ;;
  let total := match total with
               | None => b_total data
               | Some _ => total
               end in
  let issues := default [] (b_issues data) in
  match issues with
  | [] => ret (Stop startAt processed)
  | _ :: _ =>
      processed <- process_issues fuel out_tmp processed issues ;;
      let startAt := startAt + Z.of_nat (length issues) in
      let checkpoint := {| ck_startAt := startAt;
                           ck_processed := elements processed |} in
      save_checkpoint project checkpoint ;;;
      if reached total startAt then ret (Stop startAt processed)
      else
        time_sleep (1 # 2) ;;;
        ret (Again startAt processed total)
  end.

(** The [while True] of [scrape_project]; gives the loop variables at the
    [break]. *)
Fixpoint scan (pages fuel : nat) (project jql out_tmp : string) (maxResults : Z)
    (startAt : Z) (processed : gset Key) (total : option Z)
    : M (Z * gset Key) :=
  match pages with
  | O => diverge
  | S pages' =>
      f <- scan_page fuel project jql out_tmp maxResults startAt processed total ;;
      match f with
      | Stop startAt' processed' => ret (startAt', processed')
      | Again startAt' processed' total' =>
          scan pages' fuel project jql out_tmp maxResults startAt' processed' total'
      end
  end.

(** The end of [scrape_project]: the rename into place (lines 216-218). *)
Definition finalize (out_path out_tmp : string) : M unit :=
  e <- os_path_exists out_path ;;
  (if e : bool then os_replace out_path (out_path +:+ ".bak") else ret tt) ;;;
  os_replace out_tmp out_path.

Definition default_jql (project : string) : string :=
  "project = " +:+ project +:+ " ORDER BY created ASC".

Definition scrape_project (fuel : nat) (project out_path : string)
    (jql : option string) : M unit :=
  checkpoint <- load_checkpoint project ;;
  let startAt := ck_startAt checkpoint in
  let processed : gset Key := list_to_set (ck_processed checkpoint) in
  let maxResults := DEFAULT_MAX_RESULTS in
  let jql := match jql with
             | Some q => if String.eqb q EmptyString then default_jql project else q
             | None => default_jql project
             end in
  let out_tmp := out_path +:+ ".tmp" in
  open_append out_tmp ;;;
  scan fuel fuel project jql out_tmp maxResults startAt processed None ;;;
  close out_tmp ;;;
  finalize out_path out_tmp ;;;
  emit (Finished project out_path).

(** ** Observing a run *)

(** The state [s] after the world moved to [w] and [evs] happened. *)
Definition after (s : state) (w : W) (evs : list event) : state :=
  mkState w (files s) (out_buf s) (trace s ++ evs).


(** The HTTP attempts among some effects. *)
Definition is_http_get (e : event) : bool :=
  match e with
  | HttpGet _ _ => true
  | _ => false
  end.

Definition attempts (evs : list event) : nat :=
  length (filter (fun e => is_http_get e = true) evs).

(** The responses [jira_get] has a branch for: a connection failure,
    status 200, or a status from 400 to 599. *)
Definition classified (r : response) : Prop :=
  match r with
  | ConnectionFailed => True
  | Reply code _ _ => code = 200 \/ 400 <= code < 600
  end.

(** Effects of one logical request: HTTP attempts at its URL, and sleeps. *)
Definition request_event (url : string) (params : option Params) (e : event) : Prop :=
  match e with
  | HttpGet u p => u = url /\ p = params
  | Sleep _ => True
  | _ => False
  end.

(** A computation whose effects all satisfy [P] and that leaves the files
    and the write buffer alone. *)
Definition only (P : event -> Prop) {A} (m : M A) : Prop :=
  forall s out s', m s = (out, s') ->
    exists w evs, s' = after s w evs /\ Forall P evs.

(** The URL [fetch_comments] asks for. *)
Definition comment_url (k : Key) : string :=
  BASE +:+ "/issue/" +:+ key_text k +:+ "/comment".

(** The state after [out_f.write] of the line of [r] and [out_f.flush()]. *)
Definition appended (s : state) (path : string) (r : OutRecord) : state :=
  mkState (world s)
          (<[path := default [] (files s !! path)
                     ++ (out_buf s ++ [RecordLine (json_dumps r +:+ nl)])]> (files s))
          []
          (trace s ++ [Wrote path r; Flushed path]).

(** The state after [save_checkpoint(project, c)]. *)
Definition saved (s : state) (project : string) (c : Checkpoint) : state :=
  let fname := checkpoint_fname project in
  mkState (world s)
          (<[fname := [JsonCheckpoint c]]>
             (delete (fname +:+ ".tmp")
                     (<[fname +:+ ".tmp" := [JsonCheckpoint c]]> (files s))))
          (out_buf s)
          (trace s ++ [Dumped (fname +:+ ".tmp") c;
                       Replaced (fname +:+ ".tmp") fname]).

(** The records written among some effects. *)
Definition written (evs : list event) : list OutRecord :=
  omap (fun e => match e with Wrote _ r => Some r | _ => None end) evs.

(** The steps of checkpoint saves among some effects: dumps and renames. *)
Definition persisted (evs : list event) : list event :=
  omap (fun e => match e with
                 | Dumped _ _ | Replaced _ _ => Some e
                 | _ => None
                 end) evs.

(** The URLs asked for among some effects. *)
Definition fetched (evs : list event) : list string :=
  omap (fun e => match e with HttpGet u _ => Some u | _ => None end) evs.

(** The issues of a page that get a record: those whose key is not yet
    processed when their turn comes. *)
Fixpoint fresh (processed : gset Key) (issues : list Issue) : list Issue :=
  match issues with
  | [] => []
  | i :: rest =>
      if decide (issue_key i ∈ processed) then fresh processed rest
      else i :: fresh (processed ∪ {[issue_key i]}) rest
  end.

(** The effects of handling one unprocessed issue: the attempts and sleeps
    of its comment request, at most one warning, and, when the issue is
    [done], the write of its record followed by the flush. *)
Definition item_events (out_tmp : string) (i : Issue) (done : bool)
    (evs : list event) : Prop :=
  exists net warn tail,
    evs = net ++ warn ++ tail
    /\ Forall (request_event (comment_url (issue_key i)) None) net
    /\ (warn = [] \/ exists e, warn = [Warning (issue_key i) e])
    /\ (if done
        then exists r, tail = [Wrote out_tmp r; Flushed out_tmp]
                       /\ r_key r = issue_key i
        else tail = []).

(** The effects of handling the unprocessed issues [todo] in turn, all of
    them when [complete], else up to one that was not done. *)
Fixpoint page_events (out_tmp : string) (todo : list Issue) (complete : bool)
    (evs : list event) : Prop :=
  match todo with
  | [] => evs = [] /\ complete = true
  | i :: rest =>
      exists evs1 evs2,
        evs = evs1 ++ evs2
        /\ ((item_events out_tmp i true evs1
             /\ page_events out_tmp rest complete evs2)
            \/ (complete = false /\ item_events out_tmp i false evs1
                /\ evs2 = []))
  end.

(** Replaying effects to know which keys have their record on disk:
    [known] are the keys whose record was written to the working file
    [out_tmp] and flushed (or that the run started with), [pending] those
    written and not yet flushed. *)
Fixpoint replay (out_tmp : string) (known : gset Key) (pending : list Key)
    (evs : list event) : gset Key * list Key :=
  match evs with
  | [] => (known, pending)
  | e :: evs' =>
      match e with
      | Wrote path r =>
          if String.eqb path out_tmp
          then replay out_tmp known (pending ++ [r_key r]) evs'
          else replay out_tmp known pending evs'
      | Flushed path =>
          if String.eqb path out_tmp
          then replay out_tmp (known ∪ list_to_set pending) [] evs'
          else replay out_tmp known pending evs'
      | _ => replay out_tmp known pending evs'
      end
  end.

(** Whether every checkpoint persisted among [evs] lists only keys whose
    record is on disk at that moment. *)
Fixpoint audit (out_tmp : string) (known : gset Key) (pending : list Key)
    (evs : list event) : bool :=
  match evs with
  | [] => true
  | e :: evs' =>
      match e with
      | Wrote path r =>
          if String.eqb path out_tmp
          then audit out_tmp known (pending ++ [r_key r]) evs'
          else audit out_tmp known pending evs'
      | Flushed path =>
          if String.eqb path out_tmp
          then audit out_tmp (known ∪ list_to_set pending) [] evs'
          else audit out_tmp known pending evs'
      | Dumped _ c =>
          forallb (fun k => bool_decide (k ∈ known)) (ck_processed c)
          && audit out_tmp known pending evs'
      | _ => audit out_tmp known pending evs'
      end
  end.

(** Effects that touch neither the working file nor a checkpoint. *)
Definition silent (e : event) : Prop :=
  match e with
  | HttpGet _ _ | Sleep _ | Warning _ _ => True
  | _ => False
  end.

(** The search request of the page at [startAt]. *)
Definition search_url : string := BASE +:+ "/search".

Definition search_params (jql : string) (startAt maxResults : Z) : option Params :=
  Some {| p_jql := jql; p_startAt := startAt;
          p_maxResults := maxResults; p_fields := SEARCH_FIELDS |}.

(** [total] after a page: captured from the first body that has one. *)
Definition seen_total (total : option Z) (data : Body) : option Z :=
  match total with
  | None => b_total data
  | Some _ => total
  end.

(** The state after [open(path, "a")] and after [out_f.close()]. *)
Definition opened (s : state) (path : string) : state :=
  mkState (world s) (<[path := default [] (files s !! path)]> (files s)) []
          (trace s ++ [Opened path]).

Definition closed (s : state) (path : string) : state :=
  mkState (world s) (push_buffer path s) [] (trace s ++ [Closed path]).

(** The query [scrape_project] sends. *)
Definition effective_jql (project : string) (jql : option string) : string :=
  match jql with
  | Some q => if String.eqb q EmptyString then default_jql project else q
  | None => default_jql project
  end.


(** Effects that neither write or flush a record nor dump a checkpoint. *)
Definition neutral (e : event) : Prop :=
  match e with
  | Wrote _ _ | Flushed _ | Dumped _ _ => False
  | _ => True
  end.

(** A state with no file and no effect yet. *)
Definition initial (w : W) : state := mkState w ∅ [] [].

(** *** Further observations *)

(** The exceptions a request can surface: a connection failure, a
    [ValueError] (a body that is no JSON, or a sleep refused) and an
    [HTTPError] with a status from 400 to 599. *)
Definition surfaced (e : exn) : Prop :=
  e = RequestException \/ e = ValueError
  \/ exists code, e = HTTPError code /\ 400 <= code < 600.





(** The line [out_f.write] puts in the working file for a record. *)
Definition line_of (r : OutRecord) : blob := RecordLine (json_dumps r +:+ nl).

(** The checkpoints dumped among some effects, in order. *)
Definition dumped (evs : list event) : list Checkpoint :=
  omap (fun e => match e with Dumped _ c => Some c | _ => None end) evs.

(** Successive checkpoints that each move the offset forward and keep
    the keys of the one before, starting after offset [a] and keys [p]. *)
Fixpoint advancing (a : Z) (p : gset Key) (cs : list Checkpoint) : Prop :=
  match cs with
  | [] => True
  | c :: cs' =>
      a < ck_startAt c
      /\ p ⊆ list_to_set (ck_processed c)
      /\ advancing (ck_startAt c) (list_to_set (ck_processed c)) cs'
  end.

(** The loop variables a turn of the loop ends with. *)
Definition flow_startAt (f : flow) : Z :=
  match f with
  | Again a _ _ | Stop a _ => a
  end.

Definition flow_processed (f : flow) : gset Key :=
  match f with
  | Again _ p _ | Stop _ p => p
  end.


(** The requests a scan may make: the search request with the given
    query, page size and field list at an offset of at least [a0], with
    parameters, and the comment request of some key, without parameters.
    Other effects are not constrained. *)
Definition run_event (jql : string) (maxResults a0 : Z) (e : event) : Prop :=
  match e with
  | HttpGet u ps =>
      (u = search_url /\ exists a, a0 <= a /\ ps = search_params jql a maxResults)
      \/ (ps = None /\ exists k, u = comment_url k)
  | _ => True
  end.

(** The effects of the end of a run. *)
Definition settled (e : event) : Prop :=
  match e with
  | Closed _ | Replaced _ _ | Finished _ _ => True
  | _ => False
  end.

(** ** Properties *)

(** *** Backoff arithmetic *)










(** *** Running the monad *)

Lemma after_nil (s : state) : after s (world s) [] = s.
Proof. destruct s. unfold after. simpl. rewrite app_nil_r. reflexivity. Qed.

Lemma after_after (s : state) (w w' : W) (evs evs' : list event) :
  after (after s w evs) w' evs' = after s w' (evs ++ evs').
Proof. unfold after. simpl. rewrite app_assoc. reflexivity. Qed.

Lemma bind_ret {A B} (m : M A) (k : A -> M B) (s s1 : state) (a : A) :
  m s = (Ret a, s1) -> bind m k s = k a s1.
Proof. intros H. unfold bind. rewrite H. reflexivity. Qed.

Lemma bind_raise {A B} (m : M A) (k : A -> M B) (s s1 : state) (e : exn) :
  m s = (Raise e, s1) -> bind m k s = (Raise e, s1).
Proof. intros H. unfold bind. rewrite H. reflexivity. Qed.

Lemma bind_diverge {A B} (m : M A) (k : A -> M B) (s s1 : state) :
  m s = (Diverge, s1) -> bind m k s = (Diverge, s1).
Proof. intros H. unfold bind. rewrite H. reflexivity. Qed.

Lemma http_get_run (url : string) (params : option Params) (s : state) :
  http_get url params s =
  (Ret (fst (session_get (world s) url params)),
   after s (snd (session_get (world s) url params)) [HttpGet url params]).
Proof. unfold http_get. destruct (session_get _ _ _). reflexivity. Qed.

Lemma time_sleep_run (d : Q) (s : state) :
  (0 <= d)%Q -> time_sleep d s = (Ret tt, after s (world s) [Sleep d]).
Proof.
  intros H. unfold time_sleep. destruct (Qlt_le_dec d 0) as [Hlt|_].
  - exfalso. apply (Qlt_irrefl 0). eapply Qle_lt_trans; eassumption.
  - reflexivity.
Qed.


(** [backoff_sleep] either sleeps once or raises: it never loops. *)
Lemma backoff_sleep_cases (attempt : Z) (base cap : Q) (s : state) :
  (exists d, backoff_sleep attempt base cap s =
             (Ret tt, after s (snd (random_random (world s))) [Sleep d]))
  \/ backoff_sleep attempt base cap s =
     (Raise ValueError, after s (snd (random_random (world s))) []).
Proof.
  unfold backoff_sleep, bind, draw, time_sleep.
  destruct (random_random (world s)) as [r w]. simpl.
  destruct (Qlt_le_dec _ 0).
  - right. unfold raise, after. simpl. rewrite app_nil_r. reflexivity.
  - left. eexists. reflexivity.
Qed.

(** *** The transport *)


(** C5. A response with a 4xx status other than 429 ends the request at
    once with an [HTTPError]: the only effect is that one HTTP attempt, no
    sleep and no further attempt, whatever the attempt counter and the
    budget are; for a fresh [jira_get] this is exactly one attempt. *)
Theorem client_error_fails_immediately (fuel : nat) (url : string)
    (params : option Params) (max_attempts attempt : Z) (s : state)
    (code : Z) (ra : option string) (body : option Body) :
  fst (session_get (world s) url params) = Reply code ra body ->
  400 <= code < 500 ->
  code <> 429 ->
  jira_get_loop (S fuel) url params max_attempts attempt s =
    (Raise (HTTPError code),
     after s (snd (session_get (world s) url params)) [HttpGet url params])
  /\ jira_get (S fuel) url params max_attempts s =
    (Raise (HTTPError code),
     after s (snd (session_get (world s) url params)) [HttpGet url params]).
Proof.
  intros Hr Hc Hn.
  assert (jira_get_loop (S fuel) url params max_attempts attempt s =
          (Raise (HTTPError code),
           after s (snd (session_get (world s) url params)) [HttpGet url params])
          /\ jira_get_loop (S fuel) url params max_attempts 0 s =
          (Raise (HTTPError code),
           after s (snd (session_get (world s) url params)) [HttpGet url params]))
    as H.
  { split; simpl; erewrite bind_ret by apply http_get_run; rewrite Hr;
      replace (code =? 200) with false by lia;
      replace (code =? 429) with false by lia;
      replace ((500 <=? code) && (code <? 600)) with false by lia;
      unfold check_status, raise_for_status;
      replace ((400 <=? code) && (code <? 600)) with true by lia;
      reflexivity. }
  exact H.
Qed.

Lemma py_int_5 : py_int "5" = Some 5.
Proof. reflexivity. Qed.


(** *** Effects of the transport *)

Lemma only_ret (P : event -> Prop) {A} (a : A) : only P (ret a).
Proof.
  intros s out s' H. injection H as <- <-.
  exists (world s), []. rewrite after_nil. split; [reflexivity | constructor].
Qed.

Lemma only_raise (P : event -> Prop) {A} (e : exn) : only P (@raise A e).
Proof.
  intros s out s' H. injection H as <- <-.
  exists (world s), []. rewrite after_nil. split; [reflexivity | constructor].
Qed.

Lemma only_diverge (P : event -> Prop) {A} : only P (@diverge A).
Proof.
  intros s out s' H. injection H as <- <-.
  exists (world s), []. rewrite after_nil. split; [reflexivity | constructor].
Qed.

Lemma only_bind (P : event -> Prop) {A B} (m : M A) (k : A -> M B) :
  only P m -> (forall a, only P (k a)) -> only P (bind m k).
Proof.
  intros Hm Hk s out s' H. unfold bind in H.
  destruct (m s) as [[a|e|] s1] eqn:E; destruct (Hm _ _ _ E) as (w1 & evs1 & -> & F1).
  - destruct (Hk a _ _ _ H) as (w2 & evs2 & -> & F2).
    exists w2, (evs1 ++ evs2). rewrite after_after. split; [reflexivity|].
    apply Forall_app; split; assumption.
  - injection H as <- <-. eauto.
  - injection H as <- <-. eauto.
Qed.

Lemma only_weaken (P Q : event -> Prop) {A} (m : M A) :
  (forall e, P e -> Q e) -> only P m -> only Q m.
Proof.
  intros HPQ Hm s out s' H. destruct (Hm _ _ _ H) as (w & evs & -> & F).
  exists w, evs. split; [reflexivity|]. eapply Forall_impl; eassumption.
Qed.

Lemma only_http_get (url : string) (params : option Params) :
  only (request_event url params) (http_get url params).
Proof.
  intros s out s' H. rewrite http_get_run in H. injection H as <- <-.
  eexists _, _. split; [reflexivity|]. repeat constructor.
Qed.

Lemma time_sleep_cases (d : Q) (s : state) :
  time_sleep d s = (Ret tt, after s (world s) [Sleep d])
  \/ time_sleep d s = (Raise ValueError, after s (world s) []).
Proof.
  unfold time_sleep. destruct (Qlt_le_dec d 0).
  - right. rewrite after_nil. reflexivity.
  - left. reflexivity.
Qed.

Lemma only_time_sleep (url : string) (params : option Params) (d : Q) :
  only (request_event url params) (time_sleep d).
Proof.
  intros s out s' H.
  destruct (time_sleep_cases d s) as [E | E];
    rewrite E in H; injection H as <- <-; eexists _, _;
    (split; [reflexivity|]); repeat constructor.
Qed.

Lemma only_backoff_sleep (url : string) (params : option Params)
    (attempt : Z) (base cap : Q) :
  only (request_event url params) (backoff_sleep attempt base cap).
Proof.
  intros s out s' H.
  destruct (backoff_sleep_cases attempt base cap s) as [[d E] | E];
    rewrite E in H; injection H as <- <-; eexists _, _;
    (split; [reflexivity|]); repeat constructor.
Qed.

(** The pause of the 429 branch sleeps once, or fails in the sleep. *)
Lemma rate_limit_pause_cases (ra : option string) (attempt : Z) (s : state) :
  exists w,
    (exists d, rate_limit_pause ra attempt s = (Ret tt, after s w [Sleep d]))
    \/ rate_limit_pause ra attempt s = (Raise ValueError, after s w []).
Proof.
  unfold rate_limit_pause.
  destruct ra as [h|]; [destruct (String.eqb h EmptyString)|].
  - destruct (backoff_sleep_cases attempt DEFAULT_BASE DEFAULT_CAP s) as [[d E] | E];
      rewrite E; eauto.
  - destruct (time_sleep_cases (inject_Z (default 60 (py_int h) + 1)) s) as [E | E];
      rewrite E; eauto.
  - destruct (backoff_sleep_cases attempt DEFAULT_BASE DEFAULT_CAP s) as [[d E] | E];
      rewrite E; eauto.
Qed.

Lemma only_rate_limit_pause (url : string) (params : option Params)
    (ra : option string) (attempt : Z) :
  only (request_event url params) (rate_limit_pause ra attempt).
Proof.
  intros s out s' H.
  destruct (rate_limit_pause_cases ra attempt s) as [w [[d E] | E]];
    rewrite E in H; injection H as <- <-; eexists _, _;
    (split; [reflexivity|]); repeat constructor.
Qed.

Lemma only_check_status (P : event -> Prop) (code : Z) :
  only P (check_status code).
Proof.
  unfold check_status. destruct (raise_for_status code);
    [apply only_raise | apply only_ret].
Qed.

Ltac only_step :=
  first
    [ apply only_ret | apply only_raise | apply only_diverge
    | apply only_http_get | apply only_time_sleep
    | apply only_backoff_sleep | apply only_check_status
    | apply only_rate_limit_pause
    | assumption
    | apply only_bind; [|intros ?]
    | match goal with
      | |- only _ (if ?b then _ else _) => destruct b
      | |- only _ (match ?x with _ => _ end) => destruct x
      end ].

(** Every effect of a request is an attempt at its URL or a sleep. *)
Lemma jira_get_loop_only (fuel : nat) (url : string)
    (params : option Params) (max_attempts attempt : Z) :
  only (request_event url params)
       (jira_get_loop fuel url params max_attempts attempt).
Proof.
  revert attempt. induction fuel as [|fuel IH]; intros attempt; simpl.
  - apply only_diverge.
  - repeat only_step; apply IH.
Qed.

Lemma attempts_app (evs1 evs2 : list event) :
  attempts (evs1 ++ evs2) = (attempts evs1 + attempts evs2)%nat.
Proof. unfold attempts. rewrite filter_app, length_app. reflexivity. Qed.

(** After a backoff the loop either goes on, one sleep later, or the
    sleep itself failed. *)
Lemma backoff_then (attempt : Z) {A} (k : M A) (s : state) (out : outcome A)
    (s' : state) :
  bind (backoff_sleep attempt DEFAULT_BASE DEFAULT_CAP) (fun _ => k) s = (out, s') ->
  (exists d w, k (after s w [Sleep d]) = (out, s'))
  \/ (exists w, out = Raise ValueError /\ s' = after s w []).
Proof.
  intros H.
  destruct (backoff_sleep_cases attempt DEFAULT_BASE DEFAULT_CAP s) as [[d E] | E].
  - erewrite bind_ret in H by exact E. left. eauto.
  - erewrite bind_raise in H by exact E. injection H as <- <-. right. eauto.
Qed.

(** When every response is one [jira_get] has a branch for, a request
    started with the counter at [attempt] makes at most
    [max_attempts - attempt + 1] HTTP attempts (at least one), and with that
    much fuel it returns or raises. *)
Lemma jira_get_loop_budget (max_attempts : Z) :
  (forall w url params, classified (fst (session_get w url params))) ->
  forall (fuel : nat) (url : string) (params : option Params) (attempt : Z)
         (s : state) (out : outcome Body) (s' : state),
    (0 < fuel)%nat ->
    max_attempts - attempt < Z.of_nat fuel ->
    jira_get_loop fuel url params max_attempts attempt s = (out, s') ->
    out <> Diverge
    /\ exists w evs, s' = after s w evs
       /\ Z.of_nat (attempts evs) <= Z.max 1 (max_attempts - attempt + 1).
Proof.
  intros Hcl. induction fuel as [|fuel IH]; intros url params attempt s out s' Hpos Hfuel H.
  - lia.
  - simpl in H. erewrite bind_ret in H by apply http_get_run.
    pose proof (Hcl (world s) url params) as Hc.
    set (w1 := snd (session_get (world s) url params)) in *.
    assert (forall s1 w evs1,
               s1 = after s w (HttpGet url params :: evs1) ->
               attempts evs1 = 0%nat ->
               attempt < max_attempts ->
               jira_get_loop fuel url params max_attempts (attempt + 1) s1 = (out, s') ->
               out <> Diverge
               /\ exists w evs, s' = after s w evs
                  /\ Z.of_nat (attempts evs) <= Z.max 1 (max_attempts - attempt + 1))
      as Hnext.
    { intros s1 w0 evs1 -> H0 Hlt Hrun.
      destruct (IH url params (attempt + 1) _ out s' ltac:(lia) ltac:(lia) Hrun)
        as (Hd & w & evs & -> & Hn).
      split; [exact Hd|]. eexists w, _. rewrite after_after. split; [reflexivity|].
      change (HttpGet url params :: evs1) with ([HttpGet url params] ++ evs1).
      rewrite !attempts_app, H0. unfold attempts at 1. simpl. lia. }
    assert (forall e w evs1,
               out = Raise e -> s' = after s w (HttpGet url params :: evs1) ->
               attempts evs1 = 0%nat ->
               out <> Diverge
               /\ exists w evs, s' = after s w evs
                  /\ Z.of_nat (attempts evs) <= Z.max 1 (max_attempts - attempt + 1))
      as Hstop.
    { intros e w evs1 -> -> H0. split; [discriminate|].
      eexists w, _. split; [reflexivity|].
      change (HttpGet url params :: evs1) with ([HttpGet url params] ++ evs1).
      rewrite attempts_app, H0. unfold attempts. simpl. lia. }
    destruct (fst (session_get (world s) url params)) as [|code ra body].
    + destruct (attempt >=? max_attempts) eqn:Ea.
      * injection H as <- <-. eapply Hstop; [reflexivity | reflexivity | reflexivity].
      * apply backoff_then in H. destruct H as [(d & w & H) | (w & -> & ->)].
        -- rewrite after_after in H. eapply (Hnext _ _ [Sleep d]); [reflexivity | reflexivity | lia | exact H].
        -- eapply Hstop; [reflexivity | exact (after_after _ _ _ [HttpGet url params] []) | reflexivity].
    + simpl in Hc. destruct (code =? 200) eqn:E200.
      * destruct body as [b|].
        -- injection H as <- <-. split; [discriminate|].
           eexists _, _. split; [reflexivity|]. unfold attempts. simpl. lia.
        -- destruct (attempt >=? max_attempts) eqn:Ea.
           ++ injection H as <- <-. eapply Hstop; [reflexivity | reflexivity | reflexivity].
           ++ apply backoff_then in H. destruct H as [(d & w & H) | (w & -> & ->)].
              ** rewrite after_after in H. eapply (Hnext _ _ [Sleep d]); [reflexivity | reflexivity | lia | exact H].
              ** eapply Hstop; [reflexivity | exact (after_after _ _ _ [HttpGet url params] []) | reflexivity].
      * assert (400 <= code < 600) as Hcode by lia.
        assert (check_status code = raise (HTTPError code)) as Hcs.
        { unfold check_status, raise_for_status.
          replace ((400 <=? code) && (code <? 600)) with true by lia. reflexivity. }
        rewrite Hcs in H.
        destruct (code =? 429) eqn:E429.
        -- destruct (rate_limit_pause_cases ra attempt (after s w1 [HttpGet url params]))
             as [w [[d E] | E]].
           ++ erewrite bind_ret in H by exact E. rewrite after_after in H.
              destruct (attempt + 1 >? max_attempts) eqn:Ea.
              ** erewrite bind_raise in H by reflexivity. injection H as <- <-.
                 eapply Hstop; [reflexivity | reflexivity | reflexivity].
              ** erewrite bind_ret in H by reflexivity.
                 eapply (Hnext _ _ [Sleep d]); [reflexivity | reflexivity | lia | exact H].
           ++ erewrite bind_raise in H by exact E. rewrite after_after in H.
              injection H as <- <-.
              eapply Hstop; [reflexivity | reflexivity | reflexivity].
        -- destruct ((500 <=? code) && (code <? 600)) eqn:E5.
           ++ destruct (attempt >=? max_attempts) eqn:Ea.
              ** erewrite bind_raise in H by reflexivity. injection H as <- <-.
                 eapply Hstop; [reflexivity | reflexivity | reflexivity].
              ** erewrite bind_ret in H by reflexivity.
                 apply backoff_then in H. destruct H as [(d & w & H) | (w & -> & ->)].
                 --- rewrite after_after in H.
                     eapply (Hnext _ _ [Sleep d]); [reflexivity | reflexivity | lia | exact H].
                 --- eapply Hstop; [reflexivity | exact (after_after _ _ _ [HttpGet url params] []) | reflexivity].
           ++ erewrite bind_raise in H by reflexivity. injection H as <- <-.
              eapply Hstop; [reflexivity | reflexivity | reflexivity].
Qed.

(** With the default budget a request makes at most seven HTTP attempts
    and, given fuel for seven turns, returns or raises, as long as every
    response is one [jira_get] has a branch for. *)
Lemma jira_get_default_budget (url : string) (params : option Params)
    (s : state) (out : outcome Body) (s' : state) :
  (forall w url params, classified (fst (session_get w url params))) ->
  jira_get 7 url params DEFAULT_MAX_ATTEMPTS s = (out, s') ->
  out <> Diverge
  /\ exists w evs, s' = after s w evs /\ (attempts evs <= 7)%nat.
Proof.
  intros Hcl H.
  destruct (jira_get_loop_budget DEFAULT_MAX_ATTEMPTS Hcl 7 url params 0 s out s')
    as (Hd & w & evs & -> & Hn).
  - lia.
  - unfold DEFAULT_MAX_ATTEMPTS. lia.
  - exact H.
  - split; [exact Hd|]. exists w, evs. split; [reflexivity|].
    unfold DEFAULT_MAX_ATTEMPTS in Hn. lia.
Qed.

(** A [Retry-After] header that does not read as an integer, such as an
    HTTP date, makes the pause 61 seconds; an empty one counts as absent. *)
Lemma retry_after_unreadable (h : string) (attempt : Z) (s : state) :
  h <> EmptyString -> py_int h = None ->
  rate_limit_pause (Some h) attempt s = (Ret tt, after s (world s) [Sleep 61]).
Proof.
  intros Hne Hint. unfold rate_limit_pause.
  destruct (String.eqb h EmptyString) eqn:E.
  - apply String.eqb_eq in E. contradiction.
  - rewrite Hint. reflexivity.
Qed.

Lemma retry_after_empty (attempt : Z) :
  rate_limit_pause (Some EmptyString) attempt
  = backoff_sleep attempt DEFAULT_BASE DEFAULT_CAP.
Proof. reflexivity. Qed.

(** *** Handling one issue *)

Lemma fetch_comments_only (fuel : nat) (k : Key) :
  only (request_event (comment_url k) None) (fetch_comments fuel k).
Proof.
  unfold fetch_comments, jira_get. apply only_bind.
  - apply jira_get_loop_only.
  - intros data. apply only_ret.
Qed.

Lemma issue_to_record_key (i : Issue) (c : list Comment) (r : OutRecord) :
  issue_to_record i c = inr r -> r_key r = issue_key i /\ r_comments r = c.
Proof.
  unfold issue_to_record. destruct (fields_get (issue_fields i) summary).
  - intros H. injection H as <-. split; reflexivity.
  - discriminate.
Qed.

Lemma process_issue_skip (fuel : nat) (out_tmp : string) (p : gset Key)
    (i : Issue) (s : state) :
  issue_key i ∈ p -> process_issue fuel out_tmp p i s = (Ret p, s).
Proof.
  intros H. unfold process_issue. destruct (decide (issue_key i ∈ p)).
  - reflexivity.
  - contradiction.
Qed.

(** The rest of [process_issue] once the comments are settled. *)
Lemma emit_record_run (out_tmp : string) (p : gset Key) (i : Issue)
    (c : list Comment) (s : state) :
  bind (lift (issue_to_record i c))
       (fun record => bind (write_record out_tmp record)
          (fun _ => bind (flush out_tmp)
             (fun _ => ret (p ∪ {[issue_key i]})))) s =
  match issue_to_record i c with
  | inr r => (Ret (p ∪ {[issue_key i]}), appended s out_tmp r)
  | inl e => (Raise e, s)
  end.
Proof.
  destruct (issue_to_record i c) as [e|r]; [reflexivity|].
  unfold bind, lift, ret, write_record, flush, push_buffer, appended. simpl.
  rewrite <- !app_assoc. reflexivity.
Qed.

(** What [process_issue] does on an issue that is not yet processed. *)
Lemma process_issue_run (fuel : nat) (out_tmp : string) (p : gset Key)
    (i : Issue) (s : state) :
  issue_key i ∉ p ->
  match fetch_comments fuel (issue_key i) s with
  | (Ret c, s1) =>
      process_issue fuel out_tmp p i s =
      match issue_to_record i c with
      | inr r => (Ret (p ∪ {[issue_key i]}), appended s1 out_tmp r)
      | inl e => (Raise e, s1)
      end
  | (Raise x, s1) =>
      process_issue fuel out_tmp p i s =
      match issue_to_record i [] with
      | inr r => (Ret (p ∪ {[issue_key i]}),
                  appended (after s1 (world s1) [Warning (issue_key i) x]) out_tmp r)
      | inl e => (Raise e, after s1 (world s1) [Warning (issue_key i) x])
      end
  | (Diverge, s1) => process_issue fuel out_tmp p i s = (Diverge, s1)
  end.
Proof.
  intros Hk. unfold process_issue. destruct (decide (issue_key i ∈ p)); [contradiction|].
  destruct (fetch_comments fuel (issue_key i) s) as [[c|x|] s1] eqn:E.
  - erewrite bind_ret.
    2:{ unfold try_except. rewrite E. reflexivity. }
    apply emit_record_run.
  - erewrite bind_ret.
    2:{ unfold try_except. rewrite E. reflexivity. }
    apply emit_record_run.
  - erewrite bind_diverge; [reflexivity|].
    unfold try_except. rewrite E. reflexivity.
Qed.

Lemma process_issue_events (fuel : nat) (out_tmp : string) (p : gset Key)
    (i : Issue) (s : state) (out : outcome (gset Key)) (s' : state) :
  issue_key i ∉ p ->
  process_issue fuel out_tmp p i s = (out, s') ->
  exists evs,
    trace s' = trace s ++ evs
    /\ match out with
       | Ret p' => item_events out_tmp i true evs /\ p' = p ∪ {[issue_key i]}
       | _ => item_events out_tmp i false evs
       end.
Proof.
  intros Hk H. pose proof (process_issue_run fuel out_tmp p i s Hk) as Hrun.
  destruct (fetch_comments fuel (issue_key i) s) as [[c|x|] s1] eqn:E;
    destruct (fetch_comments_only fuel (issue_key i) _ _ _ E) as (w & net & -> & Hnet);
    rewrite Hrun in H; clear Hrun.
  - destruct (issue_to_record i c) as [e|r] eqn:Er; injection H as <- <-.
    + exists net. split; [reflexivity|].
      exists net, [], []. rewrite !app_nil_r. repeat split; auto.
    + exists (net ++ [Wrote out_tmp r; Flushed out_tmp]). split.
      * simpl. rewrite app_assoc. reflexivity.
      * split; [|reflexivity]. exists net, [], [Wrote out_tmp r; Flushed out_tmp].
        split; [reflexivity|]. split; [assumption|]. split; [auto|].
        exists r. split; [reflexivity|]. apply (issue_to_record_key _ _ _ Er).
  - destruct (issue_to_record i []) as [e|r] eqn:Er; injection H as <- <-.
    + exists (net ++ [Warning (issue_key i) x]). split.
      * simpl. rewrite app_assoc. reflexivity.
      * exists net, [Warning (issue_key i) x], []. rewrite !app_nil_r. repeat split; eauto.
    + exists (net ++ [Warning (issue_key i) x] ++ [Wrote out_tmp r; Flushed out_tmp]).
      split.
      * simpl. rewrite <- !app_assoc. reflexivity.
      * split; [|reflexivity].
        exists net, [Warning (issue_key i) x], [Wrote out_tmp r; Flushed out_tmp].
        split; [reflexivity|]. split; [assumption|]. split; [eauto|].
        exists r. split; [reflexivity|]. apply (issue_to_record_key _ _ _ Er).
  - injection H as <- <-. exists net. split; [reflexivity|].
    exists net, [], []. rewrite !app_nil_r. repeat split; auto.
Qed.

(** *** Handling a page *)

Lemma process_issues_events (fuel : nat) (out_tmp : string)
    (issues : list Issue) :
  forall (p : gset Key) (s : state) (out : outcome (gset Key)) (s' : state),
    process_issues fuel out_tmp p issues s = (out, s') ->
    exists evs,
      trace s' = trace s ++ evs
      /\ match out with
         | Ret p' => page_events out_tmp (fresh p issues) true evs
                     /\ p' = p ∪ list_to_set (map issue_key issues)
         | _ => page_events out_tmp (fresh p issues) false evs
         end.
Proof.
  induction issues as [|i rest IH]; intros p s out s' H; simpl in H.
  - injection H as <- <-. exists []. rewrite app_nil_r. split; [reflexivity|].
    simpl. split; [auto|]. set_solver.
  - simpl. destruct (decide (issue_key i ∈ p)) as [Hin|Hout].
    + erewrite bind_ret in H by (apply process_issue_skip; exact Hin).
      destruct (IH _ _ _ _ H) as (evs & Ht & Hev). exists evs. split; [exact Ht|].
      destruct out as [p'| |]; try exact Hev.
      destruct Hev as [Hev ->]. split; [exact Hev|]. set_solver.
    + unfold bind in H.
      destruct (process_issue fuel out_tmp p i s) as [[p1|e|] s1] eqn:E;
        destruct (process_issue_events _ _ _ _ _ _ _ Hout E) as (evs1 & Ht1 & Hev1).
      * destruct Hev1 as [Hev1 ->].
        destruct (IH _ _ _ _ H) as (evs2 & Ht2 & Hev2).
        exists (evs1 ++ evs2). split.
        { rewrite Ht2, Ht1, app_assoc. reflexivity. }
        destruct out as [p'| |].
        -- destruct Hev2 as [Hev2 ->]. split; [|set_solver].
           simpl. exists evs1, evs2. auto.
        -- simpl. exists evs1, evs2. auto.
        -- simpl. exists evs1, evs2. auto.
      * injection H as <- <-. exists evs1. split; [exact Ht1|].
        simpl. exists evs1, []. rewrite app_nil_r. auto.
      * injection H as <- <-. exists evs1. split; [exact Ht1|].
        simpl. exists evs1, []. rewrite app_nil_r. auto.
Qed.

(** *** Reading the effects of a page *)

Lemma replay_app (out_tmp : string) (evs1 evs2 : list event) :
  forall known pending,
    replay out_tmp known pending (evs1 ++ evs2) =
    replay out_tmp (replay out_tmp known pending evs1).1
           (replay out_tmp known pending evs1).2 evs2.
Proof.
  induction evs1 as [|e evs1 IH]; intros known pending; simpl; [reflexivity|].
  destruct e; try apply IH; destruct (String.eqb _ out_tmp); apply IH.
Qed.

Lemma audit_app (out_tmp : string) (evs1 evs2 : list event) :
  forall known pending,
    audit out_tmp known pending (evs1 ++ evs2) =
    audit out_tmp known pending evs1
    && audit out_tmp (replay out_tmp known pending evs1).1
             (replay out_tmp known pending evs1).2 evs2.
Proof.
  induction evs1 as [|e evs1 IH]; intros known pending; simpl; [reflexivity|].
  destruct e; try apply IH; try (destruct (String.eqb _ out_tmp); apply IH).
  rewrite IH, andb_assoc. reflexivity.
Qed.

Lemma silent_replay (out_tmp : string) (evs : list event) :
  Forall silent evs ->
  forall known pending,
    replay out_tmp known pending evs = (known, pending)
    /\ audit out_tmp known pending evs = true
    /\ written evs = [] /\ persisted evs = [].
Proof.
  induction 1 as [|e evs He _ IH]; intros known pending; simpl; [auto|].
  destruct e; try contradiction; apply IH.
Qed.

Lemma request_event_silent (url : string) (params : option Params) (e : event) :
  request_event url params e -> silent e.
Proof. destruct e; simpl; auto. Qed.

Lemma request_events_fetched (url : string) (params : option Params)
    (evs : list event) :
  Forall (request_event url params) evs -> Forall (eq url) (fetched evs).
Proof.
  induction 1 as [|e evs He _ IH]; [constructor|].
  destruct e; try contradiction; unfold fetched in *; simpl.
  - destruct He as [-> _]. constructor; [reflexivity | exact IH].
  - exact IH.
Qed.

Lemma written_app (evs1 evs2 : list event) :
  written (evs1 ++ evs2) = written evs1 ++ written evs2.
Proof. apply omap_app. Qed.

Lemma persisted_app (evs1 evs2 : list event) :
  persisted (evs1 ++ evs2) = persisted evs1 ++ persisted evs2.
Proof. apply omap_app. Qed.

Lemma fetched_app (evs1 evs2 : list event) :
  fetched (evs1 ++ evs2) = fetched evs1 ++ fetched evs2.
Proof. apply omap_app. Qed.

(** What the effects of one issue amount to. *)
Lemma item_events_facts (out_tmp : string) (i : Issue) (done : bool)
    (evs : list event) :
  item_events out_tmp i done evs ->
  persisted evs = []
  /\ map r_key (written evs) = (if done then [issue_key i] else [])
  /\ Forall (eq (comment_url (issue_key i))) (fetched evs)
  /\ forall known,
       replay out_tmp known [] evs =
         (if done then known ∪ {[issue_key i]} else known, [])
       /\ audit out_tmp known [] evs = true.
Proof.
  intros (net & warn & tail & -> & Hnet & Hwarn & Htail).
  assert (Forall silent net) as Hs1.
  { eapply Forall_impl; [exact Hnet | apply request_event_silent]. }
  assert (Forall silent warn) as Hs2.
  { destruct Hwarn as [-> | [e ->]]; repeat constructor. }
  assert (Forall silent (net ++ warn)) as Hs by (apply Forall_app; auto).
  assert (fetched warn = []) as Hfw by (destruct Hwarn as [-> | [e ->]]; reflexivity).
  rewrite app_assoc.
  rewrite persisted_app, written_app, fetched_app.
  destruct (silent_replay out_tmp _ Hs ∅ []) as (_ & _ & -> & ->).
  rewrite fetched_app, Hfw, app_nil_r. simpl.
  assert (Forall (eq (comment_url (issue_key i))) (fetched net)) as Hf
    by (eapply request_events_fetched; exact Hnet).
  destruct done.
  - destruct Htail as (r & -> & Hr). simpl. rewrite Hr, app_nil_r.
    repeat split; auto.
    + rewrite replay_app.
      destruct (silent_replay out_tmp _ Hs known []) as (-> & _). simpl.
      rewrite String.eqb_refl. f_equal. rewrite Hr. set_solver.
    + rewrite audit_app.
      destruct (silent_replay out_tmp _ Hs known []) as (-> & -> & _). simpl.
      rewrite String.eqb_refl. reflexivity.
  - subst tail. simpl. rewrite !app_nil_r. repeat split; auto.
    + apply (silent_replay out_tmp _ Hs known []).
    + apply (silent_replay out_tmp _ Hs known []).
Qed.

(** What the effects of a page amount to: no checkpoint is persisted, the
    records written are those of the unprocessed issues, in order, and only
    their comments are asked for. *)
Lemma page_events_facts (out_tmp : string) (todo : list Issue) (complete : bool) :
  forall evs,
    page_events out_tmp todo complete evs ->
    persisted evs = []
    /\ map r_key (written evs) `prefix_of` map issue_key todo
    /\ (complete = true -> map r_key (written evs) = map issue_key todo)
    /\ Forall (fun u => u ∈ map (fun i => comment_url (issue_key i)) todo)
              (fetched evs)
    /\ forall known,
         exists known',
           replay out_tmp known [] evs = (known', [])
           /\ known ⊆ known'
           /\ (complete = true ->
               known' = known ∪ list_to_set (map issue_key todo))
           /\ audit out_tmp known [] evs = true.
Proof.
  induction todo as [|i rest IH]; intros evs H; simpl in H.
  - destruct H as [-> ->]. simpl.
    split; [reflexivity|]. split; [apply prefix_nil|]. split; [reflexivity|].
    split; [constructor|].
    intros known. exists known.
    split; [reflexivity|]. split; [reflexivity|]. split; [|reflexivity].
    intros _. set_solver.
  - destruct H as (evs1 & evs2 & -> & [[H1 H2] | (-> & H1 & ->)]).
    + destruct (item_events_facts _ _ _ _ H1) as (Hd1 & Hw1 & Hf1 & Hr1).
      destruct (IH _ H2) as (Hd2 & Hw2 & Hwc2 & Hf2 & Hr2).
      rewrite persisted_app, written_app, fetched_app, map_app, Hd1, Hd2, Hw1.
      simpl.
      split; [reflexivity|].
      split; [apply prefix_cons; exact Hw2|].
      split; [intros Hc; rewrite (Hwc2 Hc); reflexivity|].
      split.
      * apply Forall_app. split.
        -- eapply Forall_impl; [exact Hf1|]. intros u <-. set_solver.
        -- eapply Forall_impl; [exact Hf2|]. intros u Hu. set_solver.
      * intros known. destruct (Hr1 known) as [Hrep1 Haud1].
        destruct (Hr2 (known ∪ {[issue_key i]})) as (known' & Hrep2 & Hsub & Heq & Haud2).
        exists known'. rewrite replay_app, audit_app, Hrep1, Haud1. simpl.
        split; [exact Hrep2|]. split; [set_solver|]. split; [|exact Haud2].
        intros Hc. rewrite (Heq Hc). set_solver.
    + destruct (item_events_facts _ _ _ _ H1) as (Hd1 & Hw1 & Hf1 & Hr1).
      rewrite app_nil_r. rewrite Hd1, Hw1. simpl.
      split; [reflexivity|]. split; [apply prefix_nil|]. split; [discriminate|].
      split.
      * eapply Forall_impl; [exact Hf1|]. intros u <-. set_solver.
      * intros known. destruct (Hr1 known) as [Hrep1 Haud1].
        exists known. split; [exact Hrep1|]. split; [reflexivity|].
        split; [discriminate | exact Haud1].
Qed.

Lemma fresh_keys (issues : list Issue) :
  forall (p : gset Key) (i : Issue),
    i ∈ fresh p issues -> (issue_key i ∉ p) /\ (i ∈ issues).
Proof.
  induction issues as [|j rest IH]; intros p i H; simpl in H.
  - set_solver.
  - destruct (decide (issue_key j ∈ p)).
    + destruct (IH _ _ H). set_solver.
    + apply elem_of_cons in H. destruct H as [-> | H].
      * set_solver.
      * destruct (IH _ _ H). set_solver.
Qed.

Lemma save_checkpoint_run (project : string) (c : Checkpoint) (s : state) :
  save_checkpoint project c s = (Ret tt, saved s project c).
Proof.
  unfold save_checkpoint, bind, dump_checkpoint, os_replace, saved. simpl.
  rewrite lookup_insert_eq. simpl. rewrite <- app_assoc. reflexivity.
Qed.

(** One turn of the loop, spelled out. *)
Lemma scan_page_run (fuel : nat) (project jql out_tmp : string)
    (maxResults startAt : Z) (p : gset Key) (total : option Z) (s : state) :
  scan_page fuel project jql out_tmp maxResults startAt p total s =
  match jira_get fuel search_url (search_params jql startAt maxResults)
                 DEFAULT_MAX_ATTEMPTS s with
  | (Ret data, s1) =>
      match default [] (b_issues data) with
      | [] => (Ret (Stop startAt p), s1)
      | i :: rest =>
          match process_issues fuel out_tmp p (i :: rest) s1 with
          | (Ret p', s2) =>
              let startAt' := startAt + Z.of_nat (length (i :: rest)) in
              let s3 := saved s2 project {| ck_startAt := startAt';
                                            ck_processed := elements p' |} in
              if reached (seen_total total data) startAt'
              then (Ret (Stop startAt' p'), s3)
              else (Ret (Again startAt' p' (seen_total total data)),
                    after s3 (world s3) [Sleep (1 # 2)])
          | (Raise e, s2) => (Raise e, s2)
          | (Diverge, s2) => (Diverge, s2)
          end
      end
  | (Raise e, s1) => (Raise e, s1)
  | (Diverge, s1) => (Diverge, s1)
  end.
Proof.
  unfold scan_page, search_url, search_params.
  unfold bind at 1.
  destruct (jira_get fuel _ _ DEFAULT_MAX_ATTEMPTS s) as [[data|e|] s1]; try reflexivity.
  destruct (default [] (b_issues data)) as [|i rest]; [reflexivity|].
  unfold bind at 1.
  destruct (process_issues fuel out_tmp p (i :: rest) s1) as [[p'|e|] s2]; try reflexivity.
  erewrite bind_ret by apply save_checkpoint_run.
  fold (seen_total total data).
  destruct (reached _ _); [reflexivity|].
  erewrite bind_ret by (apply time_sleep_run; discriminate).
  reflexivity.
Qed.

(** C1. When the page that comes back has no items, the turn ends the
    scan with the loop variables unchanged and in the very state the page
    fetch left: nothing is fetched, written or saved after it. This holds
    whatever [total] was known before and whatever the page reports. *)
Theorem empty_page_stops (pages fuel : nat) (project jql out_tmp : string)
    (maxResults startAt : Z) (p : gset Key) (total : option Z)
    (s s1 : state) (data : Body) :
  jira_get fuel search_url (search_params jql startAt maxResults)
           DEFAULT_MAX_ATTEMPTS s = (Ret data, s1) ->
  default [] (b_issues data) = [] ->
  scan_page fuel project jql out_tmp maxResults startAt p total s =
    (Ret (Stop startAt p), s1)
  /\ scan (S pages) fuel project jql out_tmp maxResults startAt p total s =
    (Ret (startAt, p), s1).
Proof.
  intros Hget Hempty.
  assert (scan_page fuel project jql out_tmp maxResults startAt p total s =
          (Ret (Stop startAt p), s1)) as Hpage.
  { rewrite scan_page_run, Hget, Hempty. reflexivity. }
  split; [exact Hpage|].
  simpl. erewrite bind_ret by exact Hpage. reflexivity.
Qed.

Lemma request_events_persisted (url : string) (params : option Params)
    (evs : list event) :
  Forall (request_event url params) evs -> persisted evs = [].
Proof.
  intros H. eapply (silent_replay EmptyString _ _ ∅ []). Unshelve.
  eapply Forall_impl; [exact H | apply request_event_silent].
Qed.

(** C3. After a page with items, all of them handled, the offset has
    grown by the number of items of the page (the page size asked for plays
    no part), and the checkpoint with that offset and the processed keys is
    saved: the dump and the rename of this save are the only save steps
    among the effects of the whole turn, so the save happens once per page
    and never per item. The scan then stops exactly when a total is known
    and the new offset has reached it; otherwise it pauses and goes on. *)
Theorem page_advances_and_saves_once (fuel : nat) (project jql out_tmp : string)
    (maxResults startAt : Z) (p p' : gset Key) (total : option Z)
    (s s1 s2 : state) (data : Body) (i : Issue) (rest : list Issue) :
  jira_get fuel search_url (search_params jql startAt maxResults)
           DEFAULT_MAX_ATTEMPTS s = (Ret data, s1) ->
  default [] (b_issues data) = i :: rest ->
  process_issues fuel out_tmp p (i :: rest) s1 = (Ret p', s2) ->
  let startAt' := startAt + Z.of_nat (length (i :: rest)) in
  let ck := {| ck_startAt := startAt'; ck_processed := elements p' |} in
  let fname := checkpoint_fname project in
  let s3 := saved s2 project ck in
  scan_page fuel project jql out_tmp maxResults startAt p total s =
    (if reached (seen_total total data) startAt'
     then (Ret (Stop startAt' p'), s3)
     else (Ret (Again startAt' p' (seen_total total data)),
           after s3 (world s3) [Sleep (1 # 2)]))
  /\ (exists evs, trace s3 = trace s ++ evs
                  /\ persisted evs = [Dumped (fname +:+ ".tmp") ck;
                                      Replaced (fname +:+ ".tmp") fname])
  /\ files s3 !! fname = Some [JsonCheckpoint ck]
  /\ (reached (seen_total total data) startAt' = true <->
      exists t, seen_total total data = Some t /\ t <= startAt').
Proof.
  intros Hget Hitems Hproc startAt' ck fname s3.
  split; [|split; [|split]].
  - rewrite scan_page_run, Hget, Hitems, Hproc. reflexivity.
  - destruct (jira_get_loop_only _ _ _ _ _ _ _ _ Hget) as (w1 & evs1 & -> & Hnet).
    destruct (process_issues_events _ _ _ _ _ _ _ Hproc) as (evs2 & Ht2 & Hev & _).
    destruct (page_events_facts _ _ _ _ Hev) as (Hp2 & _).
    exists (evs1 ++ evs2 ++ [Dumped (fname +:+ ".tmp") ck;
                             Replaced (fname +:+ ".tmp") fname]).
    split.
    + unfold s3, saved. simpl. rewrite Ht2. simpl. rewrite <- !app_assoc. reflexivity.
    + rewrite !persisted_app, Hp2.
      rewrite (request_events_persisted _ _ _ Hnet). reflexivity.
  - unfold s3, saved. simpl. apply lookup_insert_eq.
  - unfold reached. destruct (seen_total total data) as [t|].
    + split.
      * intros H. exists t. split; [reflexivity | lia].
      * intros (t' & [= <-] & H). lia.
    + split; [discriminate|]. intros (t' & [=] & _).
Qed.

(** Whether a record can be assembled does not depend on the comments. *)
Lemma issue_to_record_fails (i : Issue) (c c' : list Comment) (e : exn) :
  issue_to_record i c = inl e -> issue_to_record i c' = inl e.
Proof.
  unfold issue_to_record. destruct (fields_get (issue_fields i) summary).
  - discriminate.
  - auto.
Qed.

(** C8. When the comment request of an unprocessed issue fails with
    [x], after its retries or at once, [process_issue] logs a warning and
    goes on with no comments: it ends as the assembly of the record with the
    empty comment list ends. Whenever that record can be assembled (which
    does not depend on the comments), it has no comments, its line is
    appended to the working file, the key is marked processed and the page
    goes on with the next issue: the failure aborts neither the page nor
    the run. *)
Theorem comment_failure_is_survived (fuel : nat) (out_tmp : string)
    (p : gset Key) (i : Issue) (rest : list Issue) (s s1 : state) (x : exn) :
  issue_key i ∉ p ->
  fetch_comments fuel (issue_key i) s = (Raise x, s1) ->
  let warned := after s1 (world s1) [Warning (issue_key i) x] in
  process_issue fuel out_tmp p i s =
    match issue_to_record i [] with
    | inr r => (Ret (p ∪ {[issue_key i]}), appended warned out_tmp r)
    | inl e => (Raise e, warned)
    end
  /\ (forall e c, issue_to_record i [] = inl e -> issue_to_record i c = inl e)
  /\ (forall r, issue_to_record i [] = inr r ->
        r_comments r = [] /\ r_key r = issue_key i
        /\ trace (appended warned out_tmp r) =
           trace s1 ++ [Warning (issue_key i) x; Wrote out_tmp r; Flushed out_tmp]
        /\ files (appended warned out_tmp r) !! out_tmp =
           Some (default [] (files s1 !! out_tmp)
                 ++ out_buf s1 ++ [RecordLine (json_dumps r +:+ nl)])
        /\ process_issues fuel out_tmp p (i :: rest) s =
           process_issues fuel out_tmp (p ∪ {[issue_key i]}) rest
                          (appended warned out_tmp r)).
Proof.
  intros Hk Hfetch warned.
  pose proof (process_issue_run fuel out_tmp p i s Hk) as Hrun.
  rewrite Hfetch in Hrun.
  split; [exact Hrun|]. split.
  - intros e c He. eapply issue_to_record_fails. exact He.
  - intros r Hr. rewrite Hr in Hrun.
    destruct (issue_to_record_key _ _ _ Hr) as [Hkey Hcom].
    split; [exact Hcom|]. split; [exact Hkey|]. split.
    { simpl. rewrite <- app_assoc. reflexivity. }
    split.
    { simpl. apply lookup_insert_eq. }
    simpl. erewrite bind_ret by exact Hrun. reflexivity.
Qed.

(** *** Monotonicity of the loop variables *)

Lemma process_issues_grows (fuel : nat) (out_tmp : string) (issues : list Issue)
    (p p' : gset Key) (s s' : state) :
  process_issues fuel out_tmp p issues s = (Ret p', s') -> p ⊆ p'.
Proof.
  intros H. destruct (process_issues_events _ _ _ _ _ _ _ H) as (evs & _ & _ & ->).
  set_solver.
Qed.

Lemma scan_page_grows (fuel : nat) (project jql out_tmp : string)
    (maxResults startAt : Z) (p : gset Key) (total : option Z)
    (s s' : state) (f : flow) :
  scan_page fuel project jql out_tmp maxResults startAt p total s = (Ret f, s') ->
  match f with
  | Again a p' _ | Stop a p' => startAt <= a /\ p ⊆ p'
  end.
Proof.
  rewrite scan_page_run.
  destruct (jira_get _ _ _ _ s) as [[data|e|] s1]; try discriminate.
  destruct (default [] (b_issues data)) as [|i rest].
  - intros [= <- <-]. split; [lia | reflexivity].
  - destruct (process_issues fuel out_tmp p (i :: rest) s1) as [[p'|e|] s2] eqn:E;
      try discriminate.
    apply process_issues_grows in E. cbv zeta.
    destruct (reached _ _); intros [= <- <-]; split; auto; lia.
Qed.

Lemma scan_grows (pages fuel : nat) (project jql out_tmp : string)
    (maxResults : Z) :
  forall (startAt : Z) (p : gset Key) (total : option Z) (s s' : state)
         (a : Z) (p' : gset Key),
    scan pages fuel project jql out_tmp maxResults startAt p total s
      = (Ret (a, p'), s') ->
    startAt <= a /\ p ⊆ p'.
Proof.
  induction pages as [|pages IH]; intros startAt p total s s' a p' H; simpl in H.
  - discriminate.
  - unfold bind in H.
    destruct (scan_page fuel project jql out_tmp maxResults startAt p total s)
      as [[f|e|] s1] eqn:E; try discriminate.
    apply scan_page_grows in E. destruct f as [a1 p1 t1 | a1 p1].
    + destruct (IH _ _ _ _ _ _ _ H) as [Ha Hp]. destruct E. split; [lia | set_solver].
    + injection H as <- <- <-. exact E.
Qed.

(** The effects of handling a page, read off: the records written are
    those of the issues not yet processed, in page order, and only their
    comments are asked for. *)
Lemma process_issues_writes (fuel : nat) (out_tmp : string)
    (issues : list Issue) (p : gset Key) (s : state)
    (out : outcome (gset Key)) (s' : state) :
  process_issues fuel out_tmp p issues s = (out, s') ->
  exists evs,
    trace s' = trace s ++ evs
    /\ map r_key (written evs) `prefix_of` map issue_key (fresh p issues)
    /\ Forall (fun u => u ∈ map (fun i => comment_url (issue_key i)) (fresh p issues))
              (fetched evs)
    /\ forall p', out = Ret p' ->
         map r_key (written evs) = map issue_key (fresh p issues)
         /\ p' = p ∪ list_to_set (map issue_key issues).
Proof.
  intros H. destruct (process_issues_events _ _ _ _ _ _ _ H) as (evs & Ht & Hev).
  exists evs. split; [exact Ht|].
  destruct out as [p1|e|].
  - destruct Hev as [Hev ->].
    destruct (page_events_facts _ _ _ _ Hev) as (_ & Hpre & Hall & Hf & _).
    split; [exact Hpre|]. split; [exact Hf|].
    intros p' [= <-]. split; [apply Hall; reflexivity | reflexivity].
  - destruct (page_events_facts _ _ _ _ Hev) as (_ & Hpre & _ & Hf & _).
    split; [exact Hpre|]. split; [exact Hf|]. discriminate.
  - destruct (page_events_facts _ _ _ _ Hev) as (_ & Hpre & _ & Hf & _).
    split; [exact Hpre|]. split; [exact Hf|]. discriminate.
Qed.

(** C2. An issue whose key is already processed is passed over with no
    effect at all: no comment request and no record. The processed set
    only grows and the offset never decreases, within a page, over a turn
    of the loop and over the whole scan. On a page, the records written are
    those of the issues not yet processed, and only their comments are
    asked for; so, resuming with [{A}] on the page [[A, B, C]], the records
    written are those of [B] and [C] (all of them when the page is
    completed) and the comments of [A] are not asked for. *)
Theorem processed_issues_are_skipped :
  (forall fuel out_tmp (p : gset Key) i (s : state),
      issue_key i ∈ p -> process_issue fuel out_tmp p i s = (Ret p, s))
  /\ (forall fuel out_tmp issues (p p' : gset Key) (s s' : state),
        process_issues fuel out_tmp p issues s = (Ret p', s') -> p ⊆ p')
  /\ (forall fuel project jql out_tmp maxResults startAt (p : gset Key) total
             (s s' : state) f,
        scan_page fuel project jql out_tmp maxResults startAt p total s = (Ret f, s') ->
        match f with
        | Again a p' _ | Stop a p' => startAt <= a /\ p ⊆ p'
        end)
  /\ (forall pages fuel project jql out_tmp maxResults startAt (p : gset Key) total
             (s s' : state) a p',
        scan pages fuel project jql out_tmp maxResults startAt p total s
          = (Ret (a, p'), s') ->
        startAt <= a /\ p ⊆ p')
  /\ (forall fuel out_tmp issues (p : gset Key) (s : state) out s',
        process_issues fuel out_tmp p issues s = (out, s') ->
        exists evs,
          trace s' = trace s ++ evs
          /\ map r_key (written evs) `prefix_of` map issue_key (fresh p issues)
          /\ Forall (fun k => k ∉ p) (map r_key (written evs))
          /\ Forall (fun u => u ∈ map (fun i => comment_url (issue_key i))
                                      (fresh p issues))
                    (fetched evs))
  /\ (forall fuel out_tmp iA iB iC (s : state) out s',
        issue_key iA = Some "A"%string ->
        issue_key iB = Some "B"%string ->
        issue_key iC = Some "C"%string ->
        process_issues fuel out_tmp {[Some "A"%string]} [iA; iB; iC] s = (out, s') ->
        exists evs,
          trace s' = trace s ++ evs
          /\ map r_key (written evs) `prefix_of` [Some "B"%string; Some "C"%string]
          /\ (comment_url (Some "A"%string) ∉ fetched evs)
          /\ forall p', out = Ret p' ->
               map r_key (written evs) = [Some "B"%string; Some "C"%string]
               /\ p' = {[Some "A"%string; Some "B"%string; Some "C"%string]}).
Proof.
  split; [intros; apply process_issue_skip; assumption|].
  split; [intros; eapply process_issues_grows; eassumption|].
  split; [intros; eapply scan_page_grows; eassumption|].
  split; [intros; eapply scan_grows; eassumption|].
  split.
  - intros fuel out_tmp issues p s out s' H.
    destruct (process_issues_writes _ _ _ _ _ _ _ H) as (evs & Ht & Hpre & Hf & _).
    exists evs. split; [exact Ht|]. split; [exact Hpre|]. split; [|exact Hf].
    apply Forall_forall. intros k Hk.
    destruct Hpre as [more Hmore].
    assert (k ∈ map issue_key (fresh p issues)) as Hin.
    { rewrite Hmore. apply elem_of_app. left. exact Hk. }
    apply list_elem_of_fmap in Hin. destruct Hin as (i & -> & Hi).
    apply fresh_keys in Hi. apply Hi.
  - intros fuel out_tmp iA iB iC s out s' HA HB HC H.
    destruct (process_issues_writes _ _ _ _ _ _ _ H) as (evs & Ht & Hpre & Hf & Hret).
    assert (fresh {[Some "A"%string]} [iA; iB; iC] = [iB; iC]) as Hfresh.
    { simpl. rewrite HA, HB, HC.
      repeat (destruct (decide _) as [Hd|Hd]; try (exfalso; set_solver)).
      reflexivity. }
    rewrite Hfresh in *. simpl in Hpre, Hf, Hret. rewrite HB, HC in *.
    exists evs. split; [exact Ht|]. split; [exact Hpre|]. split.
    + intros Hin. rewrite Forall_forall in Hf.
      apply Hf in Hin.
      apply elem_of_cons in Hin. destruct Hin as [Hin|Hin].
      * vm_compute in Hin. discriminate Hin.
      * apply elem_of_cons in Hin. destruct Hin as [Hin|Hin].
        -- vm_compute in Hin. discriminate Hin.
        -- set_solver.
    + intros p' Hp'. destruct (Hret p' Hp') as [Hw ->]. split; [exact Hw|].
      rewrite HA. set_solver.
Qed.

(** *** The end of the run *)

Lemma append_inj (a x y : string) : a +:+ x = a +:+ y -> x = y.
Proof.
  induction a as [|c a IH]; simpl; intros H; [exact H|].
  injection H as H. auto.
Qed.

Lemma append_neq (a x : string) : x <> EmptyString -> a <> a +:+ x.
Proof.
  intros Hx. induction a as [|c a IH]; simpl; intros H.
  - apply Hx. symmetry. exact H.
  - injection H as H. auto.
Qed.

(** [scrape_project], spelled out: the rename into place is reached only
    when the scan returns. *)
Lemma scrape_project_run (fuel : nat) (project out_path : string)
    (jql : option string) (s : state) :
  let out_tmp := out_path +:+ ".tmp" in
  scrape_project fuel project out_path jql s =
  match load_checkpoint project s with
  | (Ret c0, s0) =>
      match scan fuel fuel project (effective_jql project jql) out_tmp
                 DEFAULT_MAX_RESULTS (ck_startAt c0)
                 (list_to_set (ck_processed c0)) None (opened s0 out_tmp) with
      | (Ret _, s1) =>
          bind (finalize out_path out_tmp)
               (fun _ => emit (Finished project out_path)) (closed s1 out_tmp)
      | (Raise e, s1) => (Raise e, s1)
      | (Diverge, s1) => (Diverge, s1)
      end
  | (Raise e, s0) => (Raise e, s0)
  | (Diverge, s0) => (Diverge, s0)
  end.
Proof.
  intros out_tmp. unfold scrape_project. fold out_tmp.
  fold (effective_jql project jql).
  unfold bind at 1.
  destruct (load_checkpoint project s) as [[c0|e|] s0]; reflexivity.
Qed.

Lemma load_checkpoint_state (project : string) (s s0 : state)
    (out : outcome Checkpoint) :
  load_checkpoint project s = (out, s0) -> s0 = s /\ out <> Diverge.
Proof.
  unfold load_checkpoint.
  destruct (files s !! checkpoint_fname project) as [[|[c|l] [|b bs]]|];
    intros [= <- <-]; split; auto; discriminate.
Qed.

Lemma tmp_neq_bak (out_path : string) : out_path +:+ ".tmp" <> out_path +:+ ".bak".
Proof. intros H. apply append_inj in H. discriminate H. Qed.

Lemma path_neq_tmp (out_path : string) : out_path <> out_path +:+ ".tmp".
Proof. apply append_neq. discriminate. Qed.

Lemma path_neq_bak (out_path : string) : out_path <> out_path +:+ ".bak".
Proof. apply append_neq. discriminate. Qed.

(** C9. The rename into place is reached only when the scan returns,
    that is at a [break] of the loop: when the scan raises or does not
    end, the run ends in the state the scan left. The rename itself never
    deletes what was at the destination: a file found there is renamed to
    the backup path with its content, and then the working file takes the
    destination; when nothing was at the destination no rename to the backup
    path happens and what is at the backup path stays as it was. No other
    path is touched. *)
Theorem finalize_keeps_previous_output (out_path : string) (s : state)
    (t : list blob) :
  let out_tmp := out_path +:+ ".tmp" in
  let bak := out_path +:+ ".bak" in
  files s !! out_tmp = Some t ->
  (exists s',
      finalize out_path out_tmp s = (Ret tt, s')
      /\ world s' = world s
      /\ files s' !! out_path = Some t
      /\ files s' !! out_tmp = None
      /\ (forall c, files s !! out_path = Some c ->
            files s' !! bak = Some c
            /\ trace s' = trace s ++ [Replaced out_path bak; Replaced out_tmp out_path])
      /\ (files s !! out_path = None ->
            files s' !! bak = files s !! bak
            /\ trace s' = trace s ++ [Replaced out_tmp out_path])
      /\ (forall q, q <> out_path -> q <> out_tmp -> q <> bak ->
            files s' !! q = files s !! q))
  /\ (forall fuel project jql (s0 : state),
        scrape_project fuel project out_path jql s0 =
        match load_checkpoint project s0 with
        | (Ret c0, s1) =>
            match scan fuel fuel project (effective_jql project jql) out_tmp
                       DEFAULT_MAX_RESULTS (ck_startAt c0)
                       (list_to_set (ck_processed c0)) None (opened s1 out_tmp) with
            | (Ret _, s2) =>
                bind (finalize out_path out_tmp)
                     (fun _ => emit (Finished project out_path)) (closed s2 out_tmp)
            | (Raise e, s2) => (Raise e, s2)
            | (Diverge, s2) => (Diverge, s2)
            end
        | (Raise e, s1) => (Raise e, s1)
        | (Diverge, s1) => (Diverge, s1)
        end).
Proof.
  intros out_tmp bak Htmp.
  pose proof (tmp_neq_bak out_path) as Htb.
  pose proof (path_neq_tmp out_path) as Hpt.
  pose proof (path_neq_bak out_path) as Hpb.
  fold out_tmp in Htb, Hpt. fold bak in Htb, Hpb.
  split; [|intros; apply scrape_project_run].
  unfold finalize, bind, os_path_exists.
  destruct (files s !! out_path) as [c|] eqn:Hout.
  - rewrite bool_decide_eq_true_2 by eauto.
    unfold os_replace at 1. rewrite Hout.
    unfold os_replace. simpl.
    rewrite lookup_insert_ne by auto.
    rewrite lookup_delete_ne by auto.
    rewrite Htmp.
    eexists. split; [reflexivity|]. simpl.
    split; [reflexivity|].
    split; [apply lookup_insert_eq|].
    split.
    { rewrite lookup_insert_ne by auto. apply lookup_delete_eq. }
    split.
    { intros c' [= <-]. split.
      - rewrite lookup_insert_ne by auto. rewrite lookup_delete_ne by auto.
        apply lookup_insert_eq.
      - rewrite <- app_assoc. reflexivity. }
    split; [discriminate|].
    intros q H1 H2 H3.
    rewrite lookup_insert_ne by auto. rewrite lookup_delete_ne by auto.
    rewrite lookup_insert_ne by auto. rewrite lookup_delete_ne by auto.
    reflexivity.
  - rewrite bool_decide_eq_false_2 by (intros [x Hx]; discriminate).
    unfold ret, os_replace. rewrite Htmp.
    eexists. split; [reflexivity|]. simpl.
    split; [reflexivity|].
    split; [apply lookup_insert_eq|].
    split.
    { rewrite lookup_insert_ne by auto. apply lookup_delete_eq. }
    split; [discriminate|].
    split.
    { intros _. split; [|reflexivity].
      rewrite lookup_insert_ne by auto. rewrite lookup_delete_ne by auto.
      reflexivity. }
    intros q H1 H2 H3.
    rewrite lookup_insert_ne by auto. rewrite lookup_delete_ne by auto.
    reflexivity.
Qed.

(** *** Checkpoints against the working file *)






Lemma os_replace_events (src dst : string) (s : state) (out : outcome unit)
    (s' : state) :
  os_replace src dst s = (out, s') ->
  exists evs, trace s' = trace s ++ evs /\ Forall neutral evs.
Proof.
  unfold os_replace. destruct (files s !! src); intros [= <- <-].
  - exists [Replaced src dst]. split; [reflexivity | repeat constructor].
  - exists []. rewrite app_nil_r. split; [reflexivity | constructor].
Qed.

(** The end of the run only closes and renames. *)
Lemma wrap_up_events (project out_path out_tmp : string) (s : state)
    (out : outcome unit) (s' : state) :
  bind (finalize out_path out_tmp)
       (fun _ => emit (Finished project out_path)) (closed s out_tmp) = (out, s') ->
  exists evs, trace s' = trace s ++ evs /\ Forall neutral evs.
Proof.
  unfold finalize, bind at 1 2 3, os_path_exists.
  set (s0 := closed s out_tmp).
  assert (trace s0 = trace s ++ [Closed out_tmp]) as Ht0 by reflexivity.
  assert (forall s1 evs1 o s2,
            trace s1 = trace s ++ evs1 -> Forall neutral evs1 ->
            bind (os_replace out_tmp out_path)
                 (fun _ => emit (Finished project out_path)) s1 = (o, s2) ->
            exists evs, trace s2 = trace s ++ evs /\ Forall neutral evs) as Hlast.
  { intros s1 evs1 o s2 Ht1 Hn1 H. unfold bind in H.
    destruct (os_replace out_tmp out_path s1) as [[[]|e|] s3] eqn:E;
      destruct (os_replace_events _ _ _ _ _ E) as (evs3 & Ht3 & Hn3).
    - injection H as <- <-. exists (evs1 ++ evs3 ++ [Finished project out_path]).
      split.
      + simpl. rewrite Ht3, Ht1, <- !app_assoc. reflexivity.
      + repeat (apply Forall_app; split); auto. repeat constructor.
    - injection H as <- <-. exists (evs1 ++ evs3). split.
      + rewrite Ht3, Ht1, <- !app_assoc. reflexivity.
      + apply Forall_app; split; auto.
    - injection H as <- <-. exists (evs1 ++ evs3). split.
      + rewrite Ht3, Ht1, <- !app_assoc. reflexivity.
      + apply Forall_app; split; auto. }
  destruct (bool_decide _).
  - destruct (os_replace out_path (out_path +:+ ".bak") s0) as [[[]|e|] s1] eqn:E;
      destruct (os_replace_events _ _ _ _ _ E) as (evs1 & Ht1 & Hn1).
    + intros H. eapply (Hlast s1 ([Closed out_tmp] ++ evs1)); [| |exact H].
      * rewrite Ht1, Ht0, <- app_assoc. reflexivity.
      * apply Forall_app; split; auto. repeat constructor.
    + intros [= <- <-]. exists ([Closed out_tmp] ++ evs1). split.
      * rewrite Ht1, Ht0, <- app_assoc. reflexivity.
      * apply Forall_app; split; auto. repeat constructor.
    + intros [= <- <-]. exists ([Closed out_tmp] ++ evs1). split.
      * rewrite Ht1, Ht0, <- app_assoc. reflexivity.
      * apply Forall_app; split; auto. repeat constructor.
  - intros H. eapply (Hlast s0 [Closed out_tmp]); [exact Ht0 | | exact H].
    repeat constructor.
Qed.





(** *** Further properties: checkpoint store *)

Lemma fname_neq_tmp (project : string) :
  checkpoint_fname project <> checkpoint_fname project +:+ ".tmp".
Proof. apply append_neq. discriminate. Qed.

(** Saving a checkpoint and loading it back gives the same checkpoint,
    whatever was stored under that project before; the temporary file is
    gone after the save and no other file is touched. With no checkpoint
    file at all, loading gives offset 0 and no processed key. *)
Theorem checkpoint_round_trip (project : string) (c : Checkpoint) (s : state) :
  let fname := checkpoint_fname project in
  let s1 := saved s project c in
  save_checkpoint project c s = (Ret tt, s1)
  /\ load_checkpoint project s1 = (Ret c, s1)
  /\ files s1 !! (fname +:+ ".tmp") = None
  /\ (forall q, q <> fname -> q <> fname +:+ ".tmp" -> files s1 !! q = files s !! q)
  /\ (files s !! fname = None ->
      load_checkpoint project s
      = (Ret {| ck_startAt := 0; ck_processed := [] |}, s)).
Proof.
  intros fname s1. pose proof (fname_neq_tmp project) as Hne. fold fname in Hne.
  split; [apply save_checkpoint_run|].
  assert (files s1 !! fname = Some [JsonCheckpoint c]) as Hf
    by (unfold s1, saved; simpl; apply lookup_insert_eq).
  split.
  { unfold load_checkpoint. fold fname. rewrite Hf. reflexivity. }
  split.
  { unfold s1, saved. simpl. fold fname.
    rewrite lookup_insert_ne by auto. apply lookup_delete_eq. }
  split.
  { intros q H1 H2. unfold s1, saved. simpl. fold fname.
    rewrite lookup_insert_ne by auto. rewrite lookup_delete_ne by auto.
    rewrite lookup_insert_ne by auto. reflexivity. }
  intros Hnone. unfold load_checkpoint. fold fname. rewrite Hnone. reflexivity.
Qed.

(** *** Further properties: the transport *)




(** A 429 whose [Retry-After] is present, not empty and not an integer
    (an HTTP date, say) is answered by a pause of 61 seconds; the attempt
    counter goes up and the budget is enforced as for any other 429. *)
Theorem unreadable_retry_after_waits_61 (fuel : nat) (url : string)
    (params : option Params) (max_attempts attempt : Z) (s : state)
    (h : string) (body : option Body) :
  fst (session_get (world s) url params) = Reply 429 (Some h) body ->
  h <> EmptyString ->
  py_int h = None ->
  let s2 := after s (snd (session_get (world s) url params))
                  [HttpGet url params; Sleep 61] in
  jira_get_loop (S fuel) url params max_attempts attempt s
  = if attempt + 1 >? max_attempts then (Raise (HTTPError 429), s2)
    else jira_get_loop fuel url params max_attempts (attempt + 1) s2.
Proof.
  intros Hr Hne Hint s2. simpl.
  erewrite bind_ret by apply http_get_run. rewrite Hr. simpl.
  erewrite bind_ret by (apply retry_after_unreadable; assumption).
  simpl. rewrite after_after. fold s2.
  destruct (attempt + 1 >? max_attempts).
  - erewrite bind_raise; reflexivity.
  - erewrite bind_ret; reflexivity.
Qed.

Lemma check_status_cases (code : Z) (s : state) :
  (check_status code s = (Ret tt, s) /\ ~ (400 <= code < 600))
  \/ (check_status code s = (Raise (HTTPError code), s) /\ 400 <= code < 600).
Proof.
  unfold check_status, raise_for_status.
  destruct ((400 <=? code) && (code <? 600)) eqn:E.
  - right. split; [reflexivity | lia].
  - left. split; [reflexivity | lia].
Qed.

Lemma jira_get_loop_outcomes (fuel : nat) (url : string)
    (params : option Params) (max_attempts : Z) :
  forall (attempt : Z) (s : state) (out : outcome Body) (s' : state),
    jira_get_loop fuel url params max_attempts attempt s = (out, s') ->
    match out with
    | Ret b => exists w ra, fst (session_get w url params) = Reply 200 ra (Some b)
    | Raise e => surfaced e
    | Diverge => True
    end.
Proof.
  induction fuel as [|fuel IH]; intros attempt s out s' H; simpl in H.
  - injection H as <- <-. exact I.
  - erewrite bind_ret in H by apply http_get_run.
    assert (forall st, bind (backoff_sleep attempt DEFAULT_BASE DEFAULT_CAP)
                            (fun _ => jira_get_loop fuel url params max_attempts
                                                    (attempt + 1)) st = (out, s') ->
            match out with
            | Ret b => exists w ra,
                fst (session_get w url params) = Reply 200 ra (Some b)
            | Raise e => surfaced e
            | Diverge => True
            end) as Hretry.
    { intros st Hb. apply backoff_then in Hb.
      destruct Hb as [(d & w & Hb) | (w & -> & _)].
      - eapply IH. exact Hb.
      - right. left. reflexivity. }
    destruct (fst (session_get (world s) url params)) as [|code ra body] eqn:Er.
    + destruct (attempt >=? max_attempts).
      * injection H as <- <-. left. reflexivity.
      * eapply Hretry. exact H.
    + destruct (code =? 200) eqn:E200.
      * destruct body as [b|].
        -- injection H as <- <-. exists (world s), ra.
           rewrite Er. f_equal. lia.
        -- destruct (attempt >=? max_attempts).
           ++ injection H as <- <-. right. left. reflexivity.
           ++ eapply Hretry. exact H.
      * destruct (code =? 429) eqn:E429.
        -- destruct (rate_limit_pause_cases ra attempt
                       (after s (snd (session_get (world s) url params))
                              [HttpGet url params])) as [w [[d E] | E]].
           ++ erewrite bind_ret in H by exact E.
              destruct (attempt + 1 >? max_attempts).
              ** destruct (check_status_cases code (after (after s (snd (session_get (world s) url params)) [HttpGet url params]) w [Sleep d]))
                   as [[Ec Hc] | [Ec Hc]]; [lia|].
                 erewrite bind_raise in H by exact Ec. injection H as <- <-.
                 right. right. exists code. auto.
              ** erewrite bind_ret in H by reflexivity. eapply IH. exact H.
           ++ erewrite bind_raise in H by exact E. injection H as <- <-.
              right. left. reflexivity.
        -- destruct ((500 <=? code) && (code <? 600)) eqn:E5.
           ++ destruct (attempt >=? max_attempts).
              ** destruct (check_status_cases code (after s (snd (session_get (world s) url params)) [HttpGet url params]))
                   as [[Ec Hc] | [Ec Hc]]; [lia|].
                 erewrite bind_raise in H by exact Ec. injection H as <- <-.
                 right. right. exists code. auto.
              ** erewrite bind_ret in H by reflexivity. eapply Hretry. exact H.
           ++ destruct (check_status_cases code (after s (snd (session_get (world s) url params)) [HttpGet url params]))
                as [[Ec Hc] | [Ec Hc]].
              ** erewrite bind_ret in H by exact Ec. eapply IH. exact H.
              ** erewrite bind_raise in H by exact Ec. injection H as <- <-.
                 right. right. exists code. auto.
Qed.


(** As long as every response is one [jira_get] has a branch for (a
    connection failure, a 200, a status from 400 to 599), a request with a
    budget [max_attempts >= 0] makes at most [max_attempts + 1] HTTP
    attempts, and with fuel for that many turns it returns or raises. *)
Theorem jira_get_stays_within_budget (url : string) (params : option Params)
    (max_attempts : Z) (s : state) (out : outcome Body) (s' : state) :
  (forall w url params, classified (fst (session_get w url params))) ->
  0 <= max_attempts ->
  jira_get (S (Z.to_nat max_attempts)) url params max_attempts s = (out, s') ->
  out <> Diverge
  /\ exists w evs,
       s' = after s w evs /\ (attempts evs <= S (Z.to_nat max_attempts))%nat.
Proof.
  intros Hcl Hmax H.
  destruct (jira_get_loop_budget max_attempts Hcl (S (Z.to_nat max_attempts))
              url params 0 s out s') as (Hd & w & evs & -> & Hn).
  - lia.
  - lia.
  - exact H.
  - split; [exact Hd|]. exists w, evs. split; [reflexivity | lia].
Qed.






(** *** Further properties: the working file *)

Lemma request_events_written (url : string) (params : option Params)
    (evs : list event) :
  Forall (request_event url params) evs -> written evs = [].
Proof.
  intros H. eapply (silent_replay EmptyString _ _ ∅ []). Unshelve.
  eapply Forall_impl; [exact H | apply request_event_silent].
Qed.

(** Handling one issue appends to the working file the lines of the
    records it writes, leaves nothing in the buffer and touches no other
    file. *)
Lemma process_issue_sink (fuel : nat) (out_tmp : string) (p : gset Key)
    (i : Issue) (s : state) (out : outcome (gset Key)) (s' : state)
    (base : list blob) :
  out_buf s = [] ->
  files s !! out_tmp = Some base ->
  process_issue fuel out_tmp p i s = (out, s') ->
  exists evs,
    trace s' = trace s ++ evs
    /\ out_buf s' = []
    /\ files s' !! out_tmp = Some (base ++ map line_of (written evs))
    /\ forall q, q <> out_tmp -> files s' !! q = files s !! q.
Proof.
  intros Hbuf Hfile H.
  destruct (decide (issue_key i ∈ p)) as [Hin|Hout].
  - rewrite process_issue_skip in H by exact Hin. injection H as <- <-.
    exists []. rewrite !app_nil_r. auto.
  - pose proof (process_issue_run fuel out_tmp p i s Hout) as Hrun.
    destruct (fetch_comments fuel (issue_key i) s) as [[c|x|] s1] eqn:E;
      destruct (fetch_comments_only fuel (issue_key i) _ _ _ E) as (w & net & -> & Hnet);
      pose proof (request_events_written _ _ _ Hnet) as Hw;
      rewrite Hrun in H; clear Hrun.
    + destruct (issue_to_record i c) as [e|r]; injection H as <- <-.
      * exists net. rewrite Hw, app_nil_r. simpl. auto.
      * exists (net ++ [Wrote out_tmp r; Flushed out_tmp]).
        rewrite written_app, Hw. simpl. rewrite Hfile, Hbuf. simpl.
        split; [rewrite app_assoc; reflexivity|]. split; [reflexivity|].
        split; [apply lookup_insert_eq|].
        intros q Hq. apply lookup_insert_ne. auto.
    + destruct (issue_to_record i []) as [e|r]; injection H as <- <-.
      * exists (net ++ [Warning (issue_key i) x]).
        rewrite written_app, Hw, app_nil_r. simpl.
        split; [rewrite app_assoc; reflexivity|]. auto.
      * exists (net ++ [Warning (issue_key i) x; Wrote out_tmp r; Flushed out_tmp]).
        rewrite written_app, Hw. simpl. rewrite Hfile, Hbuf. simpl.
        split; [rewrite <- !app_assoc; reflexivity|]. split; [reflexivity|].
        split; [apply lookup_insert_eq|].
        intros q Hq. apply lookup_insert_ne. auto.
    + injection H as <- <-. exists net. rewrite Hw, app_nil_r. simpl. auto.
Qed.

Lemma process_issues_sink (fuel : nat) (out_tmp : string) (issues : list Issue) :
  forall (p : gset Key) (s : state) (out : outcome (gset Key)) (s' : state)
         (base : list blob),
    out_buf s = [] ->
    files s !! out_tmp = Some base ->
    process_issues fuel out_tmp p issues s = (out, s') ->
    exists evs,
      trace s' = trace s ++ evs
      /\ out_buf s' = []
      /\ files s' !! out_tmp = Some (base ++ map line_of (written evs))
      /\ forall q, q <> out_tmp -> files s' !! q = files s !! q.
Proof.
  induction issues as [|i rest IH]; intros p s out s' base Hbuf Hfile H; simpl in H.
  - injection H as <- <-. exists []. rewrite !app_nil_r. auto.
  - unfold bind in H.
    destruct (process_issue fuel out_tmp p i s) as [[p1|e|] s1] eqn:E;
      destruct (process_issue_sink _ _ _ _ _ _ _ _ Hbuf Hfile E)
        as (evs1 & Ht1 & Hb1 & Hf1 & Hq1).
    + destruct (IH _ _ _ _ _ Hb1 Hf1 H) as (evs2 & Ht2 & Hb2 & Hf2 & Hq2).
      exists (evs1 ++ evs2).
      split; [rewrite Ht2, Ht1, app_assoc; reflexivity|].
      split; [exact Hb2|]. split.
      { rewrite Hf2, written_app, map_app, app_assoc. reflexivity. }
      intros q Hq. rewrite Hq2, Hq1 by exact Hq. reflexivity.
    + injection H as <- <-. exists evs1. auto.
    + injection H as <- <-. exists evs1. auto.
Qed.

Lemma neutral_written (evs : list event) :
  Forall neutral evs -> written evs = [].
Proof.
  induction 1 as [|e evs He _ IH]; [reflexivity|].
  destruct e; try contradiction; exact IH.
Qed.

Lemma scan_page_sink (fuel : nat) (project jql out_tmp : string)
    (maxResults startAt : Z) (p : gset Key) (total : option Z)
    (s : state) (out : outcome flow) (s' : state) (base : list blob) :
  out_tmp <> checkpoint_fname project ->
  out_tmp <> checkpoint_fname project +:+ ".tmp" ->
  out_buf s = [] ->
  files s !! out_tmp = Some base ->
  scan_page fuel project jql out_tmp maxResults startAt p total s = (out, s') ->
  exists evs,
    trace s' = trace s ++ evs
    /\ out_buf s' = []
    /\ files s' !! out_tmp = Some (base ++ map line_of (written evs))
    /\ forall q, q <> out_tmp -> q <> checkpoint_fname project ->
                 q <> checkpoint_fname project +:+ ".tmp" ->
                 files s' !! q = files s !! q.
Proof.
  intros Hn1 Hn2 Hbuf Hfile. rewrite scan_page_run.
  destruct (jira_get _ _ _ _ s) as [[data|e|] s1] eqn:Eget;
    destruct (jira_get_loop_only _ _ _ _ _ _ _ _ Eget) as (w1 & evs1 & -> & Hnet);
    pose proof (request_events_written _ _ _ Hnet) as Hw1.
  2,3: intros [= <- <-]; exists evs1; rewrite Hw1, app_nil_r; simpl; auto.
  destruct (default [] (b_issues data)) as [|i rest].
  - intros [= <- <-]. exists evs1. rewrite Hw1, app_nil_r. simpl. auto.
  - destruct (process_issues fuel out_tmp p (i :: rest) _) as [[p'|e|] s2] eqn:Eproc;
      destruct (process_issues_sink fuel out_tmp (i :: rest) p (after s w1 evs1)
                  _ _ base Hbuf Hfile Eproc)
        as (evs2 & Ht2 & Hb2 & Hf2 & Hq2).
    + cbv zeta.
      set (ck := {| ck_startAt := startAt + Z.of_nat (length (i :: rest));
                    ck_processed := elements p' |}).
      assert (files (saved s2 project ck) !! out_tmp
              = Some (base ++ map line_of (written evs2))) as Hsaved.
      { unfold saved. simpl. rewrite lookup_insert_ne by auto.
        rewrite lookup_delete_ne by auto. rewrite lookup_insert_ne by auto.
        exact Hf2. }
      assert (forall q, q <> out_tmp -> q <> checkpoint_fname project ->
                        q <> checkpoint_fname project +:+ ".tmp" ->
                        files (saved s2 project ck) !! q = files s !! q) as Hother.
      { intros q H1 H2 H3. unfold saved. simpl. rewrite lookup_insert_ne by auto.
        rewrite lookup_delete_ne by auto. rewrite lookup_insert_ne by auto.
        rewrite Hq2 by exact H1. reflexivity. }
      destruct (reached _ _); intros [= <- <-].
      * exists (evs1 ++ evs2 ++ [Dumped (checkpoint_fname project +:+ ".tmp") ck;
                                 Replaced (checkpoint_fname project +:+ ".tmp")
                                          (checkpoint_fname project)]).
        rewrite !written_app, Hw1. simpl. rewrite app_nil_r.
        split; [rewrite Ht2; simpl; rewrite <- !app_assoc; reflexivity|].
        split; [exact Hb2|]. split; [exact Hsaved | exact Hother].
      * exists (evs1 ++ evs2 ++ [Dumped (checkpoint_fname project +:+ ".tmp") ck;
                                 Replaced (checkpoint_fname project +:+ ".tmp")
                                          (checkpoint_fname project);
                                 Sleep (1 # 2)]).
        rewrite !written_app, Hw1. simpl. rewrite app_nil_r.
        split; [rewrite Ht2; simpl; rewrite <- !app_assoc; reflexivity|].
        split; [exact Hb2|]. split; [exact Hsaved | exact Hother].
    + intros [= <- <-]. exists (evs1 ++ evs2). rewrite written_app, Hw1. simpl.
      split; [rewrite Ht2; simpl; rewrite app_assoc; reflexivity|].
      split; [exact Hb2|]. split; [exact Hf2|].
      intros q H1 _ _. rewrite Hq2 by exact H1. reflexivity.
    + intros [= <- <-]. exists (evs1 ++ evs2). rewrite written_app, Hw1. simpl.
      split; [rewrite Ht2; simpl; rewrite app_assoc; reflexivity|].
      split; [exact Hb2|]. split; [exact Hf2|].
      intros q H1 _ _. rewrite Hq2 by exact H1. reflexivity.
Qed.

Lemma scan_sink (pages fuel : nat) (project jql out_tmp : string)
    (maxResults : Z) :
  out_tmp <> checkpoint_fname project ->
  out_tmp <> checkpoint_fname project +:+ ".tmp" ->
  forall (startAt : Z) (p : gset Key) (total : option Z) (s : state)
         (out : outcome (Z * gset Key)) (s' : state) (base : list blob),
    out_buf s = [] ->
    files s !! out_tmp = Some base ->
    scan pages fuel project jql out_tmp maxResults startAt p total s = (out, s') ->
    exists evs,
      trace s' = trace s ++ evs
      /\ out_buf s' = []
      /\ files s' !! out_tmp = Some (base ++ map line_of (written evs))
      /\ forall q, q <> out_tmp -> q <> checkpoint_fname project ->
                   q <> checkpoint_fname project +:+ ".tmp" ->
                   files s' !! q = files s !! q.
Proof.
  intros Hn1 Hn2.
  induction pages as [|pages IH]; intros startAt p total s out s' base Hbuf Hfile H;
    simpl in H.
  - injection H as <- <-. exists []. rewrite !app_nil_r. auto.
  - unfold bind in H.
    destruct (scan_page fuel project jql out_tmp maxResults startAt p total s)
      as [[f|e|] s1] eqn:E;
      destruct (scan_page_sink _ _ _ _ _ _ _ _ _ _ _ base Hn1 Hn2 Hbuf Hfile E)
        as (evs1 & Ht1 & Hb1 & Hf1 & Hq1).
    + destruct f as [a1 p1 t1 | a1 p1].
      * destruct (IH _ _ _ _ _ _ _ Hb1 Hf1 H) as (evs2 & Ht2 & Hb2 & Hf2 & Hq2).
        exists (evs1 ++ evs2).
        split; [rewrite Ht2, Ht1, app_assoc; reflexivity|].
        split; [exact Hb2|]. split.
        { rewrite Hf2, written_app, map_app, app_assoc. reflexivity. }
        intros q H1 H2 H3. rewrite Hq2, Hq1 by assumption. reflexivity.
      * injection H as <- <-. exists evs1. auto.
    + injection H as <- <-. exists evs1. auto.
    + injection H as <- <-. exists evs1. auto.
Qed.

(** The rename into place, when the working file is there. *)
Lemma finalize_output (out_path : string) (s : state) (t : list blob) :
  files s !! (out_path +:+ ".tmp") = Some t ->
  exists s' evs,
    finalize out_path (out_path +:+ ".tmp") s = (Ret tt, s')
    /\ trace s' = trace s ++ evs /\ Forall neutral evs
    /\ out_buf s' = out_buf s
    /\ files s' !! out_path = Some t
    /\ files s' !! (out_path +:+ ".tmp") = None.
Proof.
  intros Htmp.
  pose proof (tmp_neq_bak out_path) as Htb.
  pose proof (path_neq_tmp out_path) as Hpt.
  unfold finalize, bind, os_path_exists.
  destruct (files s !! out_path) as [c|] eqn:Hout.
  - rewrite bool_decide_eq_true_2 by eauto.
    unfold os_replace at 1. rewrite Hout.
    unfold os_replace. simpl.
    rewrite lookup_insert_ne by auto.
    rewrite lookup_delete_ne by auto.
    rewrite Htmp.
    eexists _, [Replaced out_path (out_path +:+ ".bak");
                Replaced (out_path +:+ ".tmp") out_path].
    split; [reflexivity|]. simpl.
    split; [rewrite <- app_assoc; reflexivity|].
    split; [repeat constructor|]. split; [reflexivity|].
    split; [apply lookup_insert_eq|].
    rewrite lookup_insert_ne by auto. apply lookup_delete_eq.
  - rewrite bool_decide_eq_false_2 by (intros [x Hx]; discriminate).
    unfold ret, os_replace. rewrite Htmp.
    eexists _, [Replaced (out_path +:+ ".tmp") out_path].
    split; [reflexivity|]. simpl.
    split; [reflexivity|].
    split; [repeat constructor|]. split; [reflexivity|].
    split; [apply lookup_insert_eq|].
    rewrite lookup_insert_ne by auto. apply lookup_delete_eq.
Qed.

(** A run that completes leaves at the output path what the working file
    held when the run started, followed by the lines of the records written
    in this run, in order; the working file is gone. The working file must
    not be one of the two checkpoint files of the project. *)
Theorem completed_run_output (fuel : nat) (project out_path : string)
    (jql : option string) (s s' : state) :
  let out_tmp := out_path +:+ ".tmp" in
  out_tmp <> checkpoint_fname project ->
  out_tmp <> checkpoint_fname project +:+ ".tmp" ->
  scrape_project fuel project out_path jql s = (Ret tt, s') ->
  exists evs,
    trace s' = trace s ++ evs
    /\ files s' !! out_path
       = Some (default [] (files s !! out_tmp) ++ map line_of (written evs))
    /\ files s' !! out_tmp = None.
Proof.
  intros out_tmp Hn1 Hn2 H.
  rewrite scrape_project_run in H. fold out_tmp in H.
  destruct (load_checkpoint project s) as [[c0|e|] s0] eqn:El; try discriminate.
  destruct (load_checkpoint_state _ _ _ _ El) as [-> _].
  destruct (scan _ _ _ _ _ _ _ _ _ (opened s out_tmp)) as [[r|e|] s1] eqn:Es;
    try discriminate.
  assert (out_buf (opened s out_tmp) = []) as Hb0 by reflexivity.
  assert (files (opened s out_tmp) !! out_tmp
          = Some (default [] (files s !! out_tmp))) as Hf0
    by (simpl; apply lookup_insert_eq).
  destruct (scan_sink _ _ _ _ _ _ Hn1 Hn2 _ _ _ _ _ _ _ Hb0 Hf0 Es)
    as (evs1 & Ht1 & Hb1 & Hf1 & _).
  assert (files (closed s1 out_tmp) !! out_tmp
          = Some (default [] (files s !! out_tmp) ++ map line_of (written evs1)))
    as Hclosed.
  { unfold closed, push_buffer. simpl. rewrite lookup_insert_eq, Hf1, Hb1.
    simpl. rewrite app_nil_r. reflexivity. }
  destruct (finalize_output out_path (closed s1 out_tmp) _ Hclosed)
    as (s2 & evs2 & Hfin & Ht2 & Hn & _ & Hout & Htmp).
  fold out_tmp in Hfin, Htmp.
  erewrite bind_ret in H by exact Hfin. injection H as <-.
  assert (written ([Opened out_tmp] ++ evs1 ++ [Closed out_tmp] ++ evs2
                   ++ [Finished project out_path]) = written evs1) as Hw.
  { rewrite !written_app, (neutral_written _ Hn). simpl. rewrite app_nil_r.
    reflexivity. }
  exists ([Opened out_tmp] ++ evs1 ++ [Closed out_tmp] ++ evs2 ++ [Finished project out_path]).
  rewrite Hw.
  split; [|split].
  - simpl. rewrite Ht2. simpl. rewrite Ht1. simpl. rewrite <- !app_assoc. reflexivity.
  - simpl. exact Hout.
  - simpl. exact Htmp.
Qed.

(** A run that loads its checkpoint and then does not complete (it raises,
    or does not end) leaves the working file with what it held at the start
    followed by the lines of every record written so far, nothing waiting in
    the buffer; the output path is not touched (unless it is itself one of
    the checkpoint files). *)
Theorem aborted_run_keeps_working_file (fuel : nat) (project out_path : string)
    (jql : option string) (s s' : state) (c0 : Checkpoint) (out : outcome unit) :
  let out_tmp := out_path +:+ ".tmp" in
  out_tmp <> checkpoint_fname project ->
  out_tmp <> checkpoint_fname project +:+ ".tmp" ->
  fst (load_checkpoint project s) = Ret c0 ->
  scrape_project fuel project out_path jql s = (out, s') ->
  out <> Ret tt ->
  exists evs,
    trace s' = trace s ++ evs
    /\ out_buf s' = []
    /\ files s' !! out_tmp
       = Some (default [] (files s !! out_tmp) ++ map line_of (written evs))
    /\ (out_path <> checkpoint_fname project ->
        out_path <> checkpoint_fname project +:+ ".tmp" ->
        files s' !! out_path = files s !! out_path).
Proof.
  intros out_tmp Hn1 Hn2 Hload H Hout.
  rewrite scrape_project_run in H. fold out_tmp in H.
  destruct (load_checkpoint project s) as [[c|e|] s0] eqn:El;
    simpl in Hload; try discriminate.
  destruct (load_checkpoint_state _ _ _ _ El) as [-> _].
  assert (out_buf (opened s out_tmp) = []) as Hb0 by reflexivity.
  assert (files (opened s out_tmp) !! out_tmp
          = Some (default [] (files s !! out_tmp))) as Hf0
    by (simpl; apply lookup_insert_eq).
  destruct (scan _ _ _ _ _ _ _ _ _ (opened s out_tmp)) as [[r|e|] s1] eqn:Es;
    destruct (scan_sink _ _ _ _ _ _ Hn1 Hn2 _ _ _ _ _ _ _ Hb0 Hf0 Es)
      as (evs1 & Ht1 & Hb1 & Hf1 & Hq1).
  - exfalso.
    assert (files (closed s1 out_tmp) !! out_tmp
            = Some (default [] (files s !! out_tmp) ++ map line_of (written evs1)))
      as Hclosed.
    { unfold closed, push_buffer. simpl. rewrite lookup_insert_eq, Hf1, Hb1.
      simpl. rewrite app_nil_r. reflexivity. }
    destruct (finalize_output out_path (closed s1 out_tmp) _ Hclosed)
      as (s2 & evs2 & Hfin & _).
    fold out_tmp in Hfin.
    erewrite bind_ret in H by exact Hfin. injection H as <- <-.
    apply Hout. reflexivity.
  - injection H as <- <-. exists ([Opened out_tmp] ++ evs1).
    split; [rewrite Ht1; simpl; rewrite <- app_assoc; reflexivity|].
    split; [exact Hb1|]. split; [exact Hf1|].
    intros H1 H2. rewrite Hq1; [|apply path_neq_tmp|exact H1|exact H2].
    simpl. apply lookup_insert_ne. apply not_eq_sym. apply path_neq_tmp.
  - injection H as <- <-. exists ([Opened out_tmp] ++ evs1).
    split; [rewrite Ht1; simpl; rewrite <- app_assoc; reflexivity|].
    split; [exact Hb1|]. split; [exact Hf1|].
    intros H1 H2. rewrite Hq1; [|apply path_neq_tmp|exact H1|exact H2].
    simpl. apply lookup_insert_ne. apply not_eq_sym. apply path_neq_tmp.
Qed.

(** *** Further properties: records and checkpoints over a run *)

Lemma dumped_app (evs1 evs2 : list event) :
  dumped (evs1 ++ evs2) = dumped evs1 ++ dumped evs2.
Proof. apply omap_app. Qed.

Lemma persisted_dumped (evs : list event) : persisted evs = [] -> dumped evs = [].
Proof.
  induction evs as [|e evs IH]; [reflexivity|].
  destruct e; simpl; try exact IH; discriminate.
Qed.

Lemma neutral_dumped (evs : list event) : Forall neutral evs -> dumped evs = [].
Proof.
  induction 1 as [|e evs He _ IH]; [reflexivity|].
  destruct e; try contradiction; exact IH.
Qed.

Lemma fresh_nodup (issues : list Issue) :
  forall p : gset Key,
    NoDup (map issue_key (fresh p issues))
    /\ Forall (fun k => k ∉ p) (map issue_key (fresh p issues)).
Proof.
  induction issues as [|i rest IH]; intros p; simpl.
  - split; constructor.
  - destruct (decide (issue_key i ∈ p)) as [Hin|Hout]; [apply IH|].
    destruct (IH (p ∪ {[issue_key i]})) as [Hnd Hall]. simpl. split.
    + constructor; [|exact Hnd].
      intros Hin. rewrite Forall_forall in Hall. apply Hall in Hin. set_solver.
    + constructor; [exact Hout|].
      eapply Forall_impl; [exact Hall|]. intros k Hk. set_solver.
Qed.

Lemma fresh_subset (issues : list Issue) :
  forall p : gset Key,
    list_to_set (map issue_key (fresh p issues))
    ⊆@{gset Key} list_to_set (map issue_key issues).
Proof.
  induction issues as [|i rest IH]; intros p; simpl.
  - set_solver.
  - destruct (decide (issue_key i ∈ p)).
    + specialize (IH p). set_solver.
    + specialize (IH (p ∪ {[issue_key i]})). simpl. set_solver.
Qed.

Lemma prefix_nodup_forall (P : Key -> Prop) (l1 l2 : list Key) :
  l1 `prefix_of` l2 -> NoDup l2 -> Forall P l2 -> NoDup l1 /\ Forall P l1.
Proof.
  intros [k ->] Hnd Hall. apply NoDup_app in Hnd. apply Forall_app in Hall.
  split; [apply Hnd | apply Hall].
Qed.

(** One turn of the loop, summed up: the keys written are distinct and
    new, they end up processed, and the turn dumps either nothing (an
    empty page, or a turn that did not complete) or one checkpoint that
    moves the offset forward. *)
Lemma scan_page_summary (fuel : nat) (project jql out_tmp : string)
    (maxResults startAt : Z) (p : gset Key) (total : option Z)
    (s : state) (out : outcome flow) (s' : state) :
  scan_page fuel project jql out_tmp maxResults startAt p total s = (out, s') ->
  exists evs,
    trace s' = trace s ++ evs
    /\ NoDup (map r_key (written evs))
    /\ Forall (fun k => k ∉ p) (map r_key (written evs))
    /\ match out with
       | Ret f =>
           p ∪ list_to_set (map r_key (written evs)) ⊆ flow_processed f
           /\ ((f = Stop startAt p /\ dumped evs = [])
               \/ (startAt < flow_startAt f
                   /\ dumped evs = [{| ck_startAt := flow_startAt f;
                                       ck_processed := elements (flow_processed f) |}]))
       | _ => persisted evs = []
       end.
Proof.
  rewrite scan_page_run.
  destruct (jira_get _ _ _ _ s) as [[data|e|] s1] eqn:Eget;
    destruct (jira_get_loop_only _ _ _ _ _ _ _ _ Eget) as (w1 & evs1 & -> & Hnet);
    pose proof (request_events_written _ _ _ Hnet) as Hw1;
    pose proof (request_events_persisted _ _ _ Hnet) as Hp1.
  2,3: intros [= <- <-]; exists evs1; rewrite Hw1; simpl;
       (split; [reflexivity|]); (split; [constructor|]);
       (split; [constructor | exact Hp1]).
  destruct (default [] (b_issues data)) as [|i rest].
  - intros [= <- <-]. exists evs1. rewrite Hw1. simpl.
    split; [reflexivity|]. split; [constructor|]. split; [constructor|].
    split; [set_solver|]. left. split; [reflexivity|].
    apply persisted_dumped. exact Hp1.
  - destruct (process_issues fuel out_tmp p (i :: rest) _) as [[p'|e|] s2] eqn:Eproc;
      destruct (process_issues_events _ _ _ _ _ _ _ Eproc) as (evs2 & Ht2 & Hev).
    + destruct Hev as [Hev Hp'].
      destruct (page_events_facts _ _ _ _ Hev) as (Hp2 & _ & Hkeys & _).
      specialize (Hkeys eq_refl).
      destruct (fresh_nodup (i :: rest) p) as [Hnd Hall].
      pose proof (fresh_subset (i :: rest) p) as Hsub.
      cbv zeta.
      set (a := startAt + Z.of_nat (length (i :: rest))).
      set (ck := {| ck_startAt := a; ck_processed := elements p' |}).
      set (tail := fun more =>
                     Dumped (checkpoint_fname project +:+ ".tmp") ck
                       :: Replaced (checkpoint_fname project +:+ ".tmp")
                                   (checkpoint_fname project) :: more).
      assert (forall more, (more = [] \/ more = [Sleep (1 # 2)]) ->
                written (evs1 ++ evs2 ++ tail more) = written evs2
                /\ dumped (evs1 ++ evs2 ++ tail more) = [ck]) as Htail.
      { intros more Hmore. rewrite !written_app, !dumped_app, Hw1.
        rewrite (persisted_dumped _ Hp1), (persisted_dumped _ Hp2).
        destruct Hmore as [-> | ->]; simpl; rewrite app_nil_r; auto. }
      assert (startAt < a) as Hlt by (unfold a; simpl length; lia).
      destruct (reached _ _); intros [= <- <-].
      * exists (evs1 ++ evs2 ++ tail []).
        destruct (Htail [] (or_introl eq_refl)) as [-> ->]. rewrite Hkeys.
        split; [unfold saved; simpl; rewrite Ht2; simpl;
                rewrite <- !app_assoc; reflexivity|].
        split; [exact Hnd|]. split; [exact Hall|].
        split; [simpl flow_processed; rewrite Hp'; set_solver|].
        right. split; [exact Hlt | reflexivity].
      * exists (evs1 ++ evs2 ++ tail [Sleep (1 # 2)]).
        destruct (Htail [Sleep (1 # 2)] (or_intror eq_refl)) as [-> ->]. rewrite Hkeys.
        split; [unfold saved; simpl; rewrite Ht2; simpl;
                rewrite <- !app_assoc; reflexivity|].
        split; [exact Hnd|]. split; [exact Hall|].
        split; [simpl flow_processed; rewrite Hp'; set_solver|].
        right. split; [exact Hlt | reflexivity].
    + intros [= <- <-].
      destruct (page_events_facts _ _ _ _ Hev) as (Hp2 & Hpre & _).
      destruct (fresh_nodup (i :: rest) p) as [Hnd Hall].
      destruct (prefix_nodup_forall _ _ _ Hpre Hnd Hall) as [Hnd' Hall'].
      exists (evs1 ++ evs2). rewrite written_app, Hw1. simpl.
      split; [rewrite Ht2; simpl; rewrite app_assoc; reflexivity|].
      split; [exact Hnd'|]. split; [exact Hall'|].
      rewrite persisted_app, Hp1, Hp2. reflexivity.
    + intros [= <- <-].
      destruct (page_events_facts _ _ _ _ Hev) as (Hp2 & Hpre & _).
      destruct (fresh_nodup (i :: rest) p) as [Hnd Hall].
      destruct (prefix_nodup_forall _ _ _ Hpre Hnd Hall) as [Hnd' Hall'].
      exists (evs1 ++ evs2). rewrite written_app, Hw1. simpl.
      split; [rewrite Ht2; simpl; rewrite app_assoc; reflexivity|].
      split; [exact Hnd'|]. split; [exact Hall'|].
      rewrite persisted_app, Hp1, Hp2. reflexivity.
Qed.

Lemma scan_summary (pages fuel : nat) (project jql out_tmp : string)
    (maxResults : Z) :
  forall (startAt : Z) (p : gset Key) (total : option Z) (s : state)
         (out : outcome (Z * gset Key)) (s' : state),
    scan pages fuel project jql out_tmp maxResults startAt p total s = (out, s') ->
    exists evs,
      trace s' = trace s ++ evs
      /\ NoDup (map r_key (written evs))
      /\ Forall (fun k => k ∉ p) (map r_key (written evs))
      /\ advancing startAt p (dumped evs).
Proof.
  induction pages as [|pages IH]; intros startAt p total s out s' H; simpl in H.
  - injection H as <- <-. exists []. rewrite app_nil_r.
    split; [reflexivity|]. split; [constructor|]. split; [constructor | exact I].
  - unfold bind in H.
    destruct (scan_page fuel project jql out_tmp maxResults startAt p total s)
      as [[f|e|] s1] eqn:E;
      destruct (scan_page_summary _ _ _ _ _ _ _ _ _ _ _ E)
        as (evs1 & Ht1 & Hnd1 & Hall1 & Hout).
    + destruct Hout as [Hsub Hd].
      assert (advancing startAt p (dumped evs1)
              /\ (forall cs, advancing (flow_startAt f) (flow_processed f) cs ->
                             advancing startAt p (dumped evs1 ++ cs))) as [Hadv Hext].
      { destruct Hd as [[-> ->] | [Hlt ->]].
        - split; [exact I|]. intros cs Hcs. exact Hcs.
        - simpl. rewrite list_to_set_elements_L.
          split; [split; [exact Hlt|]; split; [set_solver | exact I]|].
          intros cs Hcs. split; [exact Hlt|]. split; [set_solver | exact Hcs]. }
      destruct f as [a1 p1 t1 | a1 p1].
      * destruct (IH _ _ _ _ _ _ H) as (evs2 & Ht2 & Hnd2 & Hall2 & Hadv2).
        simpl in Hsub, Hext.
        exists (evs1 ++ evs2). rewrite written_app, map_app, dumped_app.
        split; [rewrite Ht2, Ht1, app_assoc; reflexivity|].
        split.
        { apply NoDup_app. split; [exact Hnd1|]. split; [|exact Hnd2].
          intros k Hk1 Hk2. rewrite Forall_forall in Hall2.
          apply Hall2 in Hk2. apply Hk2. apply Hsub. set_solver. }
        split.
        { apply Forall_app. split; [exact Hall1|].
          eapply Forall_impl; [exact Hall2|]. intros k Hk. set_solver. }
        apply Hext. exact Hadv2.
      * injection H as <- <-. exists evs1. auto.
    + injection H as <- <-. exists evs1.
      rewrite (persisted_dumped _ Hout). simpl. auto.
    + injection H as <- <-. exists evs1.
      rewrite (persisted_dumped _ Hout). simpl. auto.
Qed.

(** The start of a run, its scan and its end, put together. *)
Lemma scrape_project_events (fuel : nat) (project out_path : string)
    (jql : option string) (s : state) (c0 : Checkpoint)
    (out : outcome unit) (s' : state) :
  fst (load_checkpoint project s) = Ret c0 ->
  scrape_project fuel project out_path jql s = (out, s') ->
  exists evs,
    trace s' = trace s ++ evs
    /\ NoDup (map r_key (written evs))
    /\ Forall (fun k => k ∉ ck_processed c0) (map r_key (written evs))
    /\ advancing (ck_startAt c0) (list_to_set (ck_processed c0)) (dumped evs).
Proof.
  intros Hload H. rewrite scrape_project_run in H.
  destruct (load_checkpoint project s) as [[c|e|] s0] eqn:El;
    simpl in Hload; try discriminate.
  injection Hload as ->.
  destruct (load_checkpoint_state _ _ _ _ El) as [-> _].
  set (out_tmp := out_path +:+ ".tmp") in *.
  destruct (scan _ _ _ _ _ _ _ _ _ (opened s out_tmp)) as [[r|e|] s1] eqn:Es;
    destruct (scan_summary _ _ _ _ _ _ _ _ _ _ _ _ Es)
      as (evs1 & Ht1 & Hnd & Hall & Hadv);
    assert (Forall (fun k => k ∉ ck_processed c0) (map r_key (written evs1)))
      as Hall' by (eapply Forall_impl; [exact Hall|]; intros k Hk; set_solver).
  - destruct (wrap_up_events _ _ _ _ _ _ H) as (evs2 & Ht2 & Hn2).
    exists ([Opened out_tmp] ++ evs1 ++ evs2).
    rewrite !written_app, !dumped_app, (neutral_written _ Hn2), (neutral_dumped _ Hn2).
    simpl. rewrite !app_nil_r.
    split; [rewrite Ht2, Ht1; simpl; rewrite <- !app_assoc; reflexivity|]. auto.
  - injection H as <- <-. exists ([Opened out_tmp] ++ evs1).
    rewrite !written_app, !dumped_app. simpl.
    split; [rewrite Ht1; simpl; rewrite <- !app_assoc; reflexivity|]. auto.
  - injection H as <- <-. exists ([Opened out_tmp] ++ evs1).
    rewrite !written_app, !dumped_app. simpl.
    split; [rewrite Ht1; simpl; rewrite <- !app_assoc; reflexivity|]. auto.
Qed.

(** Within one run, however it ends, no key has its record written twice,
    even if the remote side lists it twice or on several pages, and no key
    of the checkpoint the run started from is written again. *)
Theorem no_record_written_twice (fuel : nat) (project out_path : string)
    (jql : option string) (s : state) (c0 : Checkpoint)
    (out : outcome unit) (s' : state) :
  fst (load_checkpoint project s) = Ret c0 ->
  scrape_project fuel project out_path jql s = (out, s') ->
  exists evs,
    trace s' = trace s ++ evs
    /\ NoDup (map r_key (written evs))
    /\ Forall (fun k => k ∉ ck_processed c0) (map r_key (written evs)).
Proof.
  intros Hload H.
  destruct (scrape_project_events _ _ _ _ _ _ _ _ Hload H) as (evs & Ht & Hnd & Hall & _).
  exists evs. auto.
Qed.

(** Within one run, however it ends, every checkpoint that is dumped has
    an offset strictly beyond the one dumped before it (beyond the loaded
    offset for the first) and lists all the keys of the one before it (of
    the loaded checkpoint for the first). *)
Theorem saved_checkpoints_advance (fuel : nat) (project out_path : string)
    (jql : option string) (s : state) (c0 : Checkpoint)
    (out : outcome unit) (s' : state) :
  fst (load_checkpoint project s) = Ret c0 ->
  scrape_project fuel project out_path jql s = (out, s') ->
  exists evs,
    trace s' = trace s ++ evs
    /\ advancing (ck_startAt c0) (list_to_set (ck_processed c0)) (dumped evs).
Proof.
  intros Hload H.
  destruct (scrape_project_events _ _ _ _ _ _ _ _ Hload H) as (evs & Ht & _ & _ & Hadv).
  exists evs. auto.
Qed.

(** A turn of the loop that does not complete, because the page request
    or the handling of an issue raises or does not end, saves no
    checkpoint: no dump and no rename is among its effects, whatever
    records it wrote before. *)
Theorem unfinished_turn_saves_nothing (fuel : nat) (project jql out_tmp : string)
    (maxResults startAt : Z) (p : gset Key) (total : option Z)
    (s : state) (out : outcome flow) (s' : state) :
  scan_page fuel project jql out_tmp maxResults startAt p total s = (out, s') ->
  (forall f, out <> Ret f) ->
  exists evs, trace s' = trace s ++ evs /\ persisted evs = [].
Proof.
  intros H Hout.
  destruct (scan_page_summary _ _ _ _ _ _ _ _ _ _ _ H) as (evs & Ht & _ & _ & Hp).
  exists evs. split; [exact Ht|].
  destruct out as [f|e|]; [exfalso; eapply Hout; reflexivity | exact Hp | exact Hp].
Qed.

(** *** Further properties: the run ends *)

Lemma jira_get_ends (fuel : nat) (url : string) (params : option Params)
    (s : state) (out : outcome Body) (s' : state) :
  (forall w url params, classified (fst (session_get w url params))) ->
  (7 <= fuel)%nat ->
  jira_get fuel url params DEFAULT_MAX_ATTEMPTS s = (out, s') ->
  out <> Diverge.
Proof.
  intros Hcl Hfuel H.
  destruct (jira_get_loop_budget DEFAULT_MAX_ATTEMPTS Hcl fuel url params 0 s out s')
    as [Hd _]; [lia | unfold DEFAULT_MAX_ATTEMPTS; lia | exact H | exact Hd].
Qed.

Lemma process_issues_ends (fuel : nat) (out_tmp : string) (issues : list Issue) :
  (forall w url params, classified (fst (session_get w url params))) ->
  (7 <= fuel)%nat ->
  forall (p : gset Key) (s : state) (out : outcome (gset Key)) (s' : state),
    process_issues fuel out_tmp p issues s = (out, s') -> out <> Diverge.
Proof.
  intros Hcl Hfuel.
  induction issues as [|i rest IH]; intros p s out s' H; simpl in H.
  - injection H as <- <-. discriminate.
  - unfold bind in H.
    destruct (process_issue fuel out_tmp p i s) as [[p1|e|] s1] eqn:E.
    + eapply IH. exact H.
    + injection H as <- <-. discriminate.
    + exfalso. destruct (decide (issue_key i ∈ p)) as [Hin|Hout].
      * rewrite process_issue_skip in E by exact Hin. discriminate.
      * pose proof (process_issue_run fuel out_tmp p i s Hout) as Hrun.
        destruct (fetch_comments fuel (issue_key i) s) as [[c|x|] s2] eqn:Ef;
          rewrite Hrun in E.
        -- destruct (issue_to_record i c); discriminate.
        -- destruct (issue_to_record i []); discriminate.
        -- unfold fetch_comments, bind in Ef.
           destruct (jira_get fuel _ None DEFAULT_MAX_ATTEMPTS s) as [[d|x|] s3] eqn:Eg;
             try discriminate.
           apply (jira_get_ends _ _ _ _ _ _ Hcl Hfuel Eg). reflexivity.
Qed.

Lemma scan_ends (fuel : nat) (project jql out_tmp : string) (maxResults T : Z) :
  (forall w url params, classified (fst (session_get w url params))) ->
  (forall w ps ra b,
      fst (session_get w search_url ps) = Reply 200 ra (Some b) ->
      exists t, b_total b = Some t /\ t <= T) ->
  (7 <= fuel)%nat ->
  forall (pages : nat) (startAt : Z) (p : gset Key) (total : option Z)
         (s : state) (out : outcome (Z * gset Key)) (s' : state),
    (total = None \/ exists t, total = Some t /\ t <= T) ->
    (0 < pages)%nat ->
    T - startAt < Z.of_nat pages ->
    scan pages fuel project jql out_tmp maxResults startAt p total s = (out, s') ->
    out <> Diverge.
Proof.
  intros Hcl Htot Hfuel.
  induction pages as [|pages IH]; intros startAt p total s out s' Hinv Hpos Hp H.
  - lia.
  - simpl in H. unfold bind in H. rewrite scan_page_run in H.
    destruct (jira_get fuel _ _ DEFAULT_MAX_ATTEMPTS s) as [[data|e|] s1] eqn:Eg.
    + destruct (jira_get_loop_outcomes _ _ _ _ _ _ _ _ Eg) as (w & ra & Hbody).
      destruct (Htot _ _ _ _ Hbody) as (t & Hbt & Ht).
      assert (exists t', seen_total total data = Some t' /\ t' <= T) as (t' & Hseen & Ht').
      { destruct Hinv as [-> | (t0 & -> & Ht0)]; simpl; eauto. }
      destruct (default [] (b_issues data)) as [|i rest].
      * injection H as <- <-. discriminate.
      * destruct (process_issues fuel out_tmp p (i :: rest) s1) as [[p'|e|] s2] eqn:Ep.
        -- cbv zeta in H. rewrite Hseen in H. unfold reached in H.
           destruct (startAt + Z.of_nat (length (i :: rest)) >=? t') eqn:Er.
           ++ injection H as <- <-. discriminate.
           ++ rewrite Z.geb_leb in Er. apply Z.leb_gt in Er.
              rewrite length_cons, Nat2Z.inj_succ in Er.
              eapply IH; [| | |exact H].
              ** right. eauto.
              ** lia.
              ** rewrite length_cons, Nat2Z.inj_succ. lia.
        -- injection H as <- <-. discriminate.
        -- exfalso. apply (process_issues_ends _ _ _ Hcl Hfuel _ _ _ _ Ep). reflexivity.
    + injection H as <- <-. discriminate.
    + exfalso. apply (jira_get_ends _ _ _ _ _ _ Hcl Hfuel Eg). reflexivity.
Qed.

(** A run ends against a remote side that only gives responses
    [jira_get] has a branch for and whose search pages always report a
    total of at most [T]: with fuel for seven turns of each request and for
    more than [T - startAt] pages, where [startAt] is the loaded offset, the
    run returns or raises. Each page with items moves the offset forward, so
    the reported total is reached. *)
Theorem run_ends_when_total_is_reported (fuel : nat) (project out_path : string)
    (jql : option string) (T : Z) (s : state) (c0 : Checkpoint)
    (out : outcome unit) (s' : state) :
  (forall w url params, classified (fst (session_get w url params))) ->
  (forall w ps ra b,
      fst (session_get w search_url ps) = Reply 200 ra (Some b) ->
      exists t, b_total b = Some t /\ t <= T) ->
  fst (load_checkpoint project s) = Ret c0 ->
  (7 <= fuel)%nat ->
  T - ck_startAt c0 < Z.of_nat fuel ->
  scrape_project fuel project out_path jql s = (out, s') ->
  out <> Diverge.
Proof.
  intros Hcl Htot Hload Hfuel HT H. rewrite scrape_project_run in H.
  destruct (load_checkpoint project s) as [[c|e|] s0] eqn:El;
    simpl in Hload; try discriminate.
  injection Hload as ->.
  set (out_tmp := out_path +:+ ".tmp") in *.
  destruct (scan _ _ _ _ _ _ _ _ _ (opened s0 out_tmp)) as [[r|e|] s1] eqn:Es.
  - unfold bind, finalize, bind, os_path_exists, os_replace, emit, ret in H.
    repeat match type of H with
           | context [if ?b then _ else _] => destruct b
           | context [match files ?st !! ?k with _ => _ end] =>
               destruct (files st !! k)
           end; injection H as <- <-; discriminate.
  - injection H as <- <-. discriminate.
  - exfalso.
    assert (0 < fuel)%nat as Hpos by lia.
    apply (scan_ends fuel project (effective_jql project jql) out_tmp
             DEFAULT_MAX_RESULTS T Hcl Htot Hfuel _ _ _ _ _ _ _
             (or_introl eq_refl) Hpos HT Es).
    reflexivity.
Qed.

(** *** Further properties: what a run asks for *)

Lemma run_event_weaken (jql : string) (maxResults a0 a1 : Z) (e : event) :
  a0 <= a1 -> run_event jql maxResults a1 e -> run_event jql maxResults a0 e.
Proof.
  intros Hle. destruct e; simpl; auto.
  intros [[-> (a & Ha & ->)] | H]; [left | right; exact H].
  split; [reflexivity|]. exists a. split; [lia | reflexivity].
Qed.

Lemma item_events_run (jql : string) (maxResults a0 : Z) (out_tmp : string)
    (i : Issue) (done : bool) (evs : list event) :
  item_events out_tmp i done evs -> Forall (run_event jql maxResults a0) evs.
Proof.
  intros (net & warn & tail & -> & Hnet & Hwarn & Htail).
  apply Forall_app. split; [|apply Forall_app; split].
  - eapply Forall_impl; [exact Hnet|]. intros e He. destruct e; simpl in *; auto.
    destruct He as [-> ->]. right. eauto.
  - destruct Hwarn as [-> | [e ->]]; repeat constructor.
  - destruct done.
    + destruct Htail as (r & -> & _). repeat constructor.
    + subst tail. constructor.
Qed.

Lemma page_events_run (jql : string) (maxResults a0 : Z) (out_tmp : string)
    (todo : list Issue) (complete : bool) :
  forall evs,
    page_events out_tmp todo complete evs ->
    Forall (run_event jql maxResults a0) evs.
Proof.
  induction todo as [|i rest IH]; intros evs H; simpl in H.
  - destruct H as [-> _]. constructor.
  - destruct H as (evs1 & evs2 & -> & [[H1 H2] | (_ & H1 & ->)]).
    + apply Forall_app. split; [eapply item_events_run; exact H1 | apply IH; exact H2].
    + rewrite app_nil_r. eapply item_events_run. exact H1.
Qed.

Lemma scan_page_requests (fuel : nat) (project jql out_tmp : string)
    (maxResults startAt : Z) (p : gset Key) (total : option Z)
    (s : state) (out : outcome flow) (s' : state) :
  scan_page fuel project jql out_tmp maxResults startAt p total s = (out, s') ->
  exists evs,
    trace s' = trace s ++ evs /\ Forall (run_event jql maxResults startAt) evs.
Proof.
  rewrite scan_page_run.
  destruct (jira_get _ _ _ _ s) as [[data|e|] s1] eqn:Eget;
    destruct (jira_get_loop_only _ _ _ _ _ _ _ _ Eget) as (w1 & evs1 & -> & Hnet);
    assert (Forall (run_event jql maxResults startAt) evs1) as H1
      by (eapply Forall_impl; [exact Hnet|]; intros ev He; destruct ev; simpl in *; auto;
          destruct He as [-> ->]; left; split; [reflexivity|];
          exists startAt; split; [lia | reflexivity]).
  2,3: intros [= <- <-]; exists evs1; auto.
  destruct (default [] (b_issues data)) as [|i rest].
  - intros [= <- <-]. exists evs1. auto.
  - destruct (process_issues fuel out_tmp p (i :: rest) _) as [[p'|e|] s2] eqn:Eproc;
      destruct (process_issues_events _ _ _ _ _ _ _ Eproc) as (evs2 & Ht2 & Hev).
    + destruct Hev as [Hev _].
      pose proof (page_events_run jql maxResults startAt _ _ _ _ Hev) as H2.
      cbv zeta. destruct (reached _ _); intros [= <- <-].
      * eexists (evs1 ++ evs2 ++ [_; _]). split.
        { unfold saved. simpl. rewrite Ht2. simpl. rewrite <- !app_assoc. reflexivity. }
        repeat (apply Forall_app; split); auto. repeat constructor.
      * eexists (evs1 ++ evs2 ++ [_; _; _]). split.
        { unfold saved. simpl. rewrite Ht2. simpl. rewrite <- !app_assoc. reflexivity. }
        repeat (apply Forall_app; split); auto. repeat constructor.
    + pose proof (page_events_run jql maxResults startAt _ _ _ _ Hev) as H2.
      intros [= <- <-]. exists (evs1 ++ evs2). split.
      { rewrite Ht2. simpl. rewrite app_assoc. reflexivity. }
      apply Forall_app; auto.
    + pose proof (page_events_run jql maxResults startAt _ _ _ _ Hev) as H2.
      intros [= <- <-]. exists (evs1 ++ evs2). split.
      { rewrite Ht2. simpl. rewrite app_assoc. reflexivity. }
      apply Forall_app; auto.
Qed.

Lemma scan_requests (pages fuel : nat) (project jql out_tmp : string)
    (maxResults : Z) :
  forall (startAt : Z) (p : gset Key) (total : option Z) (s : state)
         (out : outcome (Z * gset Key)) (s' : state),
    scan pages fuel project jql out_tmp maxResults startAt p total s = (out, s') ->
    exists evs,
      trace s' = trace s ++ evs /\ Forall (run_event jql maxResults startAt) evs.
Proof.
  induction pages as [|pages IH]; intros startAt p total s out s' H; simpl in H.
  - injection H as <- <-. exists []. rewrite app_nil_r. split; [reflexivity | constructor].
  - unfold bind in H.
    destruct (scan_page fuel project jql out_tmp maxResults startAt p total s)
      as [[f|e|] s1] eqn:E;
      destruct (scan_page_requests _ _ _ _ _ _ _ _ _ _ _ E) as (evs1 & Ht1 & H1).
    + pose proof (scan_page_grows _ _ _ _ _ _ _ _ _ _ _ E) as Hgrow.
      destruct f as [a1 p1 t1 | a1 p1].
      * destruct (IH _ _ _ _ _ _ H) as (evs2 & Ht2 & H2).
        exists (evs1 ++ evs2). split; [rewrite Ht2, Ht1, app_assoc; reflexivity|].
        apply Forall_app. split; [exact H1|].
        eapply Forall_impl; [exact H2|]. intros e He.
        eapply run_event_weaken; [|exact He]. apply Hgrow.
      * injection H as <- <-. exists evs1. auto.
    + injection H as <- <-. exists evs1. auto.
    + injection H as <- <-. exists evs1. auto.
Qed.

Lemma wrap_up_settled (project out_path out_tmp : string) (s : state)
    (out : outcome unit) (s' : state) :
  bind (finalize out_path out_tmp)
       (fun _ => emit (Finished project out_path)) (closed s out_tmp) = (out, s') ->
  exists evs, trace s' = trace s ++ evs /\ Forall settled evs.
Proof.
  unfold finalize, bind, os_path_exists, os_replace, emit, ret, closed. simpl.
  intros H.
  repeat match type of H with
         | context [if ?b then _ else _] => destruct b
         | context [match ?m !! ?k with _ => _ end] => destruct (m !! k)
         end;
    injection H as <- <-; simpl; eexists;
    (split; [rewrite <- ?app_assoc; reflexivity | repeat constructor]).
Qed.

(** Over a whole run, however it ends, the only requests made are the
    search request, always with the query of the run, the page size 100 and
    the fixed field list, at offsets not below the loaded one, and comment
    requests of issue keys, without parameters. *)
Theorem run_requests (fuel : nat) (project out_path : string)
    (jql : option string) (s : state) (c0 : Checkpoint)
    (out : outcome unit) (s' : state) :
  fst (load_checkpoint project s) = Ret c0 ->
  scrape_project fuel project out_path jql s = (out, s') ->
  exists evs,
    trace s' = trace s ++ evs
    /\ Forall (run_event (effective_jql project jql) DEFAULT_MAX_RESULTS
                         (ck_startAt c0)) evs.
Proof.
  intros Hload H. rewrite scrape_project_run in H.
  destruct (load_checkpoint project s) as [[c|e|] s0] eqn:El;
    simpl in Hload; try discriminate.
  injection Hload as ->.
  destruct (load_checkpoint_state _ _ _ _ El) as [-> _].
  set (out_tmp := out_path +:+ ".tmp") in *.
  destruct (scan _ _ _ _ _ _ _ _ _ (opened s out_tmp)) as [[r|e|] s1] eqn:Es;
    destruct (scan_requests _ _ _ _ _ _ _ _ _ _ _ _ Es) as (evs1 & Ht1 & H1).
  - destruct (wrap_up_settled _ _ _ _ _ _ H) as (evs2 & Ht2 & H2).
    exists ([Opened out_tmp] ++ evs1 ++ evs2). split.
    + rewrite Ht2, Ht1. simpl. rewrite <- !app_assoc. reflexivity.
    + apply Forall_app. split; [repeat constructor|].
      apply Forall_app. split; [exact H1|].
      eapply Forall_impl; [exact H2|]. intros e He. destruct e; simpl in *; auto.
      contradiction.
  - injection H as <- <-. exists ([Opened out_tmp] ++ evs1). split.
    + rewrite Ht1. simpl. rewrite <- !app_assoc. reflexivity.
    + apply Forall_app. split; [repeat constructor | exact H1].
  - injection H as <- <-. exists ([Opened out_tmp] ++ evs1). split.
    + rewrite Ht1. simpl. rewrite <- !app_assoc. reflexivity.
    + apply Forall_app. split; [repeat constructor | exact H1].
Qed.

(** What [fetch_comments] returns comes from a 200 response of the
    remote side to the comment request of that key: one comment per entry
    of its [comments] array, in order, and none when the body has no such
    array. *)
Theorem fetch_comments_result (fuel : nat) (k : Key) (s : state)
    (cs : list Comment) (s' : state) :
  fetch_comments fuel k s = (Ret cs, s') ->
  exists w ra b,
    fst (session_get w (comment_url k) None) = Reply 200 ra (Some b)
    /\ cs = map to_comment (default [] (b_comments b))
    /\ length cs = length (default [] (b_comments b))
    /\ (b_comments b = None -> cs = []).
Proof.
  unfold fetch_comments, bind. fold (comment_url k).
  destruct (jira_get fuel (comment_url k) None DEFAULT_MAX_ATTEMPTS s)
    as [[b|e|] s1] eqn:E; try discriminate.
  intros [= <- <-].
  destruct (jira_get_loop_outcomes _ _ _ _ _ _ _ _ E) as (w & ra & Hb).
  exists w, ra, b. split; [exact Hb|]. split; [reflexivity|].
  split; [apply length_map|]. intros ->. reflexivity.
Qed.


(** *** What is left of the run's start and of the record *)

(** A checkpoint file that does not hold exactly one JSON document ends the
    run with [ValueError] before anything else happens: no request is made,
    the working file is not opened, no file changes. *)
Theorem unreadable_checkpoint_aborts_first (fuel : nat) (project out_path : string)
    (jql : option string) (s : state) (bs : list blob) :
  files s !! checkpoint_fname project = Some bs ->
  length bs <> 1%nat ->
  scrape_project fuel project out_path jql s = (Raise ValueError, s).
Proof.
  intros Hf Hl.
  rewrite scrape_project_run. unfold load_checkpoint. rewrite Hf.
  destruct bs as [|[c|l] [|b bs]]; simpl in Hl; try lia; reflexivity.
Qed.


End Scraper.

Arguments mkState {W} world files out_buf trace.
Arguments world {W} s.
Arguments files {W} s.
Arguments out_buf {W} s.
Arguments trace {W} s.
Arguments after {W} s w evs.
Arguments initial {W} w.
Arguments saved {W} s project c.
Arguments appended {W} json_dumps s path r.
Arguments opened {W} s path.
Arguments closed {W} s path.

(** ** The transport on a status it has no branch for *)

(** C4. The retry budget does not cover every response. A status that is
    neither 200 nor from 400 to 599, such as 204, falls through every
    branch of [jira_get]: [raise_for_status] raises nothing, the attempt
    counter is not touched and no pause is made, and the loop asks again.
    Against a remote side that always answers 204 the request never returns
    and never raises, whatever the budget: with fuel for [n] turns of the
    loop it makes [n] HTTP attempts, nothing else, and is still going. *)
Theorem jira_get_spins_on_204 (fuel : nat) (url : string)
    (params : option Params) (max_attempts : Z) (s : state unit) :
  jira_get unit (always (Reply 204 None None)) (constant_random (1 # 2))
           fuel url params max_attempts s
  = (Diverge, after s tt (repeat (HttpGet url params) fuel)).
Proof.
  unfold jira_get. revert s. induction fuel as [|fuel IH]; intros s.
  - simpl. unfold diverge. destruct s as [[] f b t]. unfold after. simpl.
    rewrite app_nil_r. reflexivity.
  - simpl. erewrite bind_ret by apply http_get_run. simpl.
    unfold check_status. simpl. erewrite bind_ret by reflexivity.
    rewrite IH. rewrite after_after. reflexivity.
Qed.

(** ** Worked runs *)

(** The program against a scripted remote side, with the jitter draw
    stuck at one half. *)
Abbreviation demo_get := (jira_get (list response) scripted (constant_random (1 # 2))).
Abbreviation demo_loop := (jira_get_loop (list response) scripted (constant_random (1 # 2))).
Abbreviation demo_fetch_comments :=
  (fetch_comments (list response) scripted (constant_random (1 # 2)) plain_text no_date).
Abbreviation demo_process_issue :=
  (process_issue (list response) scripted (constant_random (1 # 2))
                 plain_text no_date plain_text dumps_title).
Abbreviation demo_process_issues :=
  (process_issues (list response) scripted (constant_random (1 # 2))
                  plain_text no_date plain_text dumps_title).
Abbreviation demo_scan_page :=
  (scan_page (list response) scripted (constant_random (1 # 2))
             plain_text no_date plain_text dumps_title).
Abbreviation demo_scan :=
  (scan (list response) scripted (constant_random (1 # 2))
        plain_text no_date plain_text dumps_title).
Abbreviation demo_scrape_project :=
  (scrape_project (list response) scripted (constant_random (1 # 2))
                  plain_text no_date plain_text dumps_title).

(** An empty page ends the scan though the remote side reported a total of
    7 and the offset is 0. *)
Lemma empty_page_stops_witness :
  let s := initial [Reply 200 None (Some (page_body (Some 7) []))] in
  let s1 := after s [] [HttpGet search_url (search_params "q" 0 100)] in
  demo_scan_page 1 "P" "q" "out.tmp" 100 0 ∅ None s = (Ret (Stop 0 ∅), s1)
  /\ demo_scan 1 1 "P" "q" "out.tmp" 100 0 ∅ None s = (Ret (0, ∅), s1).
Proof.
  intros s s1.
  apply (empty_page_stops (list response) scripted (constant_random (1 # 2))
           plain_text no_date plain_text dumps_title
           0 1 "P" "q" "out.tmp" 100 0 ∅ None s s1 (page_body (Some 7) [])).
  - reflexivity.
  - reflexivity.
Defined.

(** One 404 ends the request after one attempt. *)
Lemma client_error_witness :
  let s := initial [Reply 404 None None] in
  demo_loop 1 "u" None 6 3 s
    = (Raise (HTTPError 404), after s [] [HttpGet "u" None])
  /\ demo_get 1 "u" None 6 s
    = (Raise (HTTPError 404), after s [] [HttpGet "u" None]).
Proof.
  intros s.
  apply (client_error_fails_immediately (list response) scripted
           (constant_random (1 # 2)) 0 "u" None 6 3 s 404 None None).
  - reflexivity.
  - lia.
  - lia.
Defined.



(** A page of one issue moves the offset from 0 to 1 and saves the
    checkpoint once; no total is known, so the scan goes on. *)
Lemma page_advances_witness :
  let s := initial [Reply 200 None (Some (page_body None [bare_issue "A" "a"]));
                    Reply 200 None (Some (comments_body []))] in
  fst (demo_scan_page 1 "P" "q" "out.tmp" 100 0 ∅ None s)
    = Ret (Again 1 {[Some "A"%string]} None)
  /\ persisted (trace (snd (demo_scan_page 1 "P" "q" "out.tmp" 100 0 ∅ None s)))
     = [Dumped "checkpoint-P.json.tmp"
               {| ck_startAt := 1; ck_processed := [Some "A"%string] |};
        Replaced "checkpoint-P.json.tmp" "checkpoint-P.json"].
Proof.
  intros s.
  destruct (page_advances_and_saves_once (list response) scripted
              (constant_random (1 # 2)) plain_text no_date plain_text dumps_title
              1 "P" "q" "out.tmp" 100 0 ∅ {[Some "A"%string]} None s
              (snd (demo_get 1 search_url (search_params "q" 0 100)
                             DEFAULT_MAX_ATTEMPTS s))
              (snd (demo_process_issues 1 "out.tmp" ∅ [bare_issue "A" "a"]
                      (snd (demo_get 1 search_url (search_params "q" 0 100)
                                     DEFAULT_MAX_ATTEMPTS s))))
              (page_body None [bare_issue "A" "a"])
              (bare_issue "A" "a") [])
    as (H & _).
  - vm_compute. reflexivity.
  - reflexivity.
  - vm_compute. reflexivity.
  - rewrite H. vm_compute. split; reflexivity.
Defined.

(** The comment request of [B] fails seven times with a 500; the record
    of [B] is written all the same, with no comments. *)
Lemma comment_failure_witness :
  let s := initial (repeat (Reply 500 None None) 7) in
  fst (demo_process_issue 7 "out.tmp" ∅ (bare_issue "B" "b") s)
    = Ret (∅ ∪ {[Some "B"%string]})
  /\ map r_comments
         (written (trace (snd (demo_process_issue 7 "out.tmp" ∅ (bare_issue "B" "b") s))))
     = [[]].
Proof.
  intros s.
  destruct (comment_failure_is_survived (list response) scripted
              (constant_random (1 # 2)) plain_text no_date plain_text dumps_title
              7 "out.tmp" ∅ (bare_issue "B" "b") [] s
              (snd (demo_fetch_comments 7 (Some "B"%string) s))
              (HTTPError 500))
    as (H & _).
  - set_solver.
  - vm_compute. reflexivity.
  - rewrite H. vm_compute. split; reflexivity.
Defined.

(** An earlier output is kept as the backup when the new one takes its
    place. *)
Lemma finalize_witness :
  let s := mkState (tt : unit)
                   ({["out.tmp"%string := [RecordLine "new"]]}
                      ∪ {["out"%string := [RecordLine "old"]]}) [] [] in
  exists s',
    finalize unit "out" "out.tmp" s = (Ret tt, s')
    /\ files s' !! "out"%string = Some [RecordLine "new"]
    /\ files s' !! "out.bak"%string = Some [RecordLine "old"].
Proof.
  intros s.
  destruct (finalize_keeps_previous_output unit (always ConnectionFailed)
              (constant_random (1 # 2)) plain_text no_date plain_text dumps_title
              "out" s [RecordLine "new"])
    as [(s' & H1 & _ & H2 & _ & H3 & _) _].
  - vm_compute. reflexivity.
  - exists s'. split; [exact H1|]. split; [exact H2|].
    apply (H3 [RecordLine "old"]). vm_compute. reflexivity.
Defined.


(** Resuming with [{A}] on the page [[A, B, C]]: the records written are
    those of [B] and [C], and the comments of [A] are not asked for. *)
Lemma resume_witness :
  let s := initial [Reply 200 None (Some (comments_body []));
                    Reply 200 None (Some (comments_body []))] in
  exists evs,
    trace (snd (demo_process_issues 1 "out.tmp" {[Some "A"%string]}
                  [bare_issue "A" "a"; bare_issue "B" "b"; bare_issue "C" "c"] s))
      = trace s ++ evs
    /\ map r_key (written evs) = [Some "B"%string; Some "C"%string]
    /\ (comment_url (Some "A"%string) ∉ fetched evs).
Proof.
  intros s.
  destruct processed_issues_are_skipped
    with (W := list response) (session_get := scripted)
         (random_random := @constant_random (list response) (1 # 2))
         (soup_text := plain_text) (dateutil_isoformat := no_date)
         (str_strip := plain_text) (json_dumps := dumps_title)
    as (_ & _ & _ & _ & _ & H).
  destruct (H 1%nat "out.tmp"%string (bare_issue "A" "a") (bare_issue "B" "b")
              (bare_issue "C" "c") s
              (Ret ({[Some "A"%string]} ∪ {[Some "B"%string]} ∪ {[Some "C"%string]}))
              (snd (demo_process_issues 1 "out.tmp" {[Some "A"%string]}
                      [bare_issue "A" "a"; bare_issue "B" "b"; bare_issue "C" "c"] s))
              eq_refl eq_refl eq_refl)
    as (evs & Ht & _ & Hf & Hw).
  - vm_compute. reflexivity.
  - exists evs. split; [exact Ht|]. split; [|exact Hf].
    apply (Hw _ eq_refl).
Defined.

(** ** Further worked runs *)

(** The program against a remote side that always gives the same
    response. *)
Abbreviation steady_get r :=
  (jira_get unit (always r) (constant_random (1 # 2))).
Abbreviation steady_scrape_project r :=
  (scrape_project unit (always r) (constant_random (1 # 2))
                  plain_text no_date plain_text dumps_title).



Lemma unreadable_retry_after_witness :
  let s := initial [Reply 429 (Some "Wed, 21 Oct 2015 07:28:00 GMT"%string) None;
                    Reply 200 None (Some (page_body None []))] in
  demo_loop 2 "u" None 6 0 s
    = (Ret (page_body None []),
       after s [] [HttpGet "u" None; Sleep 61; HttpGet "u" None]).
Proof.
  intros s.
  rewrite (unreadable_retry_after_waits_61 (list response) scripted
             (constant_random (1 # 2)) 1 "u" None 6 0 s
             "Wed, 21 Oct 2015 07:28:00 GMT" None).
  - reflexivity.
  - reflexivity.
  - discriminate.
  - reflexivity.
Defined.


Lemma budget_witness :
  fst (steady_get (Reply 503 None None) 7 "u" None 6 (initial tt)) <> Diverge
  /\ exists w evs,
       snd (steady_get (Reply 503 None None) 7 "u" None 6 (initial tt))
       = after (initial tt) w evs
       /\ (attempts evs <= 7)%nat.
Proof.
  apply (jira_get_stays_within_budget unit (always (Reply 503 None None))
           (constant_random (1 # 2)) "u" None 6 (initial tt)
           (fst (steady_get (Reply 503 None None) 7 "u" None 6 (initial tt)))
           (snd (steady_get (Reply 503 None None) 7 "u" None 6 (initial tt)))).
  - intros w url params. simpl. right. lia.
  - lia.
  - vm_compute. reflexivity.
Defined.




(** A whole run over one page [[A, B]] with a total of 2: the output path
    ends up with the two lines, after what the working file held. *)
Lemma completed_run_witness :
  let s := initial [Reply 200 None
                      (Some (page_body (Some 2) [bare_issue "A" "a"; bare_issue "B" "b"]));
                    Reply 200 None (Some (comments_body []));
                    Reply 404 None None] in
  exists evs,
    trace (snd (demo_scrape_project 3 "P" "out" None s)) = trace s ++ evs
    /\ files (snd (demo_scrape_project 3 "P" "out" None s)) !! "out"%string
       = Some (default [] (files s !! "out.tmp"%string)
               ++ map (line_of dumps_title) (written evs))
    /\ files (snd (demo_scrape_project 3 "P" "out" None s)) !! "out.tmp"%string
       = None.
Proof.
  intros s.
  apply (completed_run_output (list response) scripted
           (constant_random (1 # 2)) plain_text no_date plain_text dumps_title
           3 "P" "out" None s (snd (demo_scrape_project 3 "P" "out" None s))).
  - discriminate.
  - discriminate.
  - vm_compute. reflexivity.
Defined.

(** A run whose second search request never gets through: the record of
    [A] stays in the working file and the output path is left alone. *)
Lemma aborted_run_witness :
  let s := initial [Reply 200 None (Some (page_body None [bare_issue "A" "a"]));
                    Reply 200 None (Some (comments_body []))] in
  exists evs,
    trace (snd (demo_scrape_project 7 "P" "out" None s)) = trace s ++ evs
    /\ out_buf (snd (demo_scrape_project 7 "P" "out" None s)) = []
    /\ files (snd (demo_scrape_project 7 "P" "out" None s)) !! "out.tmp"%string
       = Some (default [] (files s !! "out.tmp"%string)
               ++ map (line_of dumps_title) (written evs))
    /\ ("out"%string <> checkpoint_fname "P" ->
        "out"%string <> checkpoint_fname "P" +:+ ".tmp" ->
        files (snd (demo_scrape_project 7 "P" "out" None s)) !! "out"%string
        = files s !! "out"%string).
Proof.
  intros s.
  apply (aborted_run_keeps_working_file (list response) scripted
           (constant_random (1 # 2)) plain_text no_date plain_text dumps_title
           7 "P" "out" None s (snd (demo_scrape_project 7 "P" "out" None s))
           {| ck_startAt := 0; ck_processed := [] |} (Raise RequestException)).
  - discriminate.
  - discriminate.
  - reflexivity.
  - vm_compute. reflexivity.
  - discriminate.
Defined.

(** A search of four issues that returns the same page [[A, B]] twice:
    each record is written once. *)
Lemma no_record_twice_witness :
  let s := initial [Reply 200 None
                      (Some (page_body (Some 4) [bare_issue "A" "a"; bare_issue "B" "b"]));
                    Reply 200 None (Some (comments_body []));
                    Reply 200 None (Some (comments_body []));
                    Reply 200 None
                      (Some (page_body (Some 4) [bare_issue "A" "a"; bare_issue "B" "b"]))] in
  exists evs,
    trace (snd (demo_scrape_project 3 "P" "out" None s)) = trace s ++ evs
    /\ NoDup (map r_key (written evs))
    /\ Forall (fun k : Key => k ∉ @nil Key) (map r_key (written evs)).
Proof.
  intros s.
  apply (no_record_written_twice (list response) scripted
           (constant_random (1 # 2)) plain_text no_date plain_text dumps_title
           3 "P" "out" None s {| ck_startAt := 0; ck_processed := [] |}
           (Ret tt) (snd (demo_scrape_project 3 "P" "out" None s))).
  - reflexivity.
  - vm_compute. reflexivity.
Defined.

(** Two turns, with the pages [[A, B]] and [[C, D]]: the checkpoints saved
    advance. *)
Lemma saved_checkpoints_witness :
  let s := initial [Reply 200 None
                      (Some (page_body (Some 4) [bare_issue "A" "a"; bare_issue "B" "b"]));
                    Reply 200 None (Some (comments_body []));
                    Reply 200 None (Some (comments_body []));
                    Reply 200 None
                      (Some (page_body (Some 4) [bare_issue "C" "c"; bare_issue "D" "d"]));
                    Reply 200 None (Some (comments_body []));
                    Reply 200 None (Some (comments_body []))] in
  exists evs,
    trace (snd (demo_scrape_project 3 "P" "out" None s)) = trace s ++ evs
    /\ advancing 0 (list_to_set (@nil Key)) (dumped evs).
Proof.
  intros s.
  apply (saved_checkpoints_advance (list response) scripted
           (constant_random (1 # 2)) plain_text no_date plain_text dumps_title
           3 "P" "out" None s {| ck_startAt := 0; ck_processed := [] |}
           (Ret tt) (snd (demo_scrape_project 3 "P" "out" None s))).
  - reflexivity.
  - vm_compute. reflexivity.
Defined.

(** A turn whose second issue has no summary: the record of [A] is
    written, and no checkpoint is saved. *)
Lemma unfinished_turn_witness :
  let s := initial [Reply 200 None
                      (Some (page_body (Some 2) [bare_issue "A" "a"; untitled_issue "B"]));
                    Reply 200 None (Some (comments_body []));
                    Reply 200 None (Some (comments_body []))] in
  exists evs,
    trace (snd (demo_scan_page 1 "P" "project = P" "out.tmp" 100 0 ∅ None s))
      = trace s ++ evs
    /\ persisted evs = [].
Proof.
  intros s.
  apply (unfinished_turn_saves_nothing (list response) scripted
           (constant_random (1 # 2)) plain_text no_date plain_text dumps_title
           1 "P" "project = P" "out.tmp" 100 0 ∅ None s (Raise TypeError)
           (snd (demo_scan_page 1 "P" "project = P" "out.tmp" 100 0 ∅ None s))).
  - vm_compute. reflexivity.
  - intros f. discriminate.
Defined.

(** A remote side that answers every request with the page [[A]] and a
    total of 1: a run with fuel 7 ends. *)
Lemma run_ends_witness :
  fst (steady_scrape_project
         (Reply 200 None (Some (page_body (Some 1) [bare_issue "A" "a"])))
         7 "P" "out" None (initial tt)) <> Diverge.
Proof.
  apply (run_ends_when_total_is_reported unit
           (always (Reply 200 None (Some (page_body (Some 1) [bare_issue "A" "a"]))))
           (constant_random (1 # 2)) plain_text no_date plain_text dumps_title
           7 "P" "out" None 1 (initial tt)
           {| ck_startAt := 0; ck_processed := [] |}
           (fst (steady_scrape_project
                   (Reply 200 None (Some (page_body (Some 1) [bare_issue "A" "a"])))
                   7 "P" "out" None (initial tt)))
           (snd (steady_scrape_project
                   (Reply 200 None (Some (page_body (Some 1) [bare_issue "A" "a"])))
                   7 "P" "out" None (initial tt)))).
  - intros w url params. left. reflexivity.
  - intros w ps ra b H. simpl in H. injection H as _ <-.
    exists 1. split; [reflexivity | lia].
  - reflexivity.
  - lia.
  - simpl. lia.
  - vm_compute. reflexivity.
Defined.

(** The events of a run with a query of its own. *)
Lemma run_requests_witness :
  let s := initial [Reply 200 None
                      (Some (page_body (Some 2) [bare_issue "A" "a"; bare_issue "B" "b"]));
                    Reply 200 None (Some (comments_body []));
                    Reply 404 None None] in
  exists evs,
    trace (snd (demo_scrape_project 3 "P" "out" (Some "status = Open"%string) s))
      = trace s ++ evs
    /\ Forall (run_event "status = Open" DEFAULT_MAX_RESULTS 0) evs.
Proof.
  intros s.
  apply (run_requests (list response) scripted
           (constant_random (1 # 2)) plain_text no_date plain_text dumps_title
           3 "P" "out" (Some "status = Open"%string) s
           {| ck_startAt := 0; ck_processed := [] |}
           (Ret tt)
           (snd (demo_scrape_project 3 "P" "out" (Some "status = Open"%string) s))).
  - reflexivity.
  - vm_compute. reflexivity.
Defined.

(** One comment, read after a refused first attempt. *)
Lemma fetch_comments_witness :
  let raw := {| rc_id := Some "7"%string;
                rc_author := Some {| displayName := Some "Ada"%string |};
                rc_created := None;
                rc_body := Some "fine"%string |} in
  let cs := [{| c_id := Some "7"%string; c_author := Some "Ada"%string;
                c_created := None; c_body := "fine"%string |}] in
  exists w ra b,
    fst (scripted w (comment_url (Some "A"%string)) None) = Reply 200 ra (Some b)
    /\ cs = map (to_comment plain_text no_date) (default [] (b_comments b))
    /\ length cs = length (default [] (b_comments b))
    /\ (b_comments b = None -> cs = []).
Proof.
  intros raw cs.
  apply (fetch_comments_result (list response) scripted
           (constant_random (1 # 2)) plain_text no_date
           2 (Some "A"%string)
           (initial [Reply 503 None None;
                     Reply 200 None (Some (comments_body [raw]))])
           cs
           (snd (demo_fetch_comments 2 (Some "A"%string)
                   (initial [Reply 503 None None;
                             Reply 200 None (Some (comments_body [raw]))])))).
  vm_compute. reflexivity.
Defined.



(** An empty checkpoint file. *)
Lemma unreadable_checkpoint_witness :
  let s := mkState (W := list response)
             [Reply 200 None (Some (page_body (Some 0) []))]
             {[ "checkpoint-P.json"%string := [] ]} [] [] in
  demo_scrape_project 3 "P" "out" None s = (Raise ValueError, s).
Proof.
  intros s.
  apply (unreadable_checkpoint_aborts_first (list response) scripted
           (constant_random (1 # 2)) plain_text no_date plain_text dumps_title
           3 "P" "out" None s []).
  - reflexivity.
  - simpl. lia.
Defined.
